(** * pycbc: PyGRB workflow helpers and the daily data checker

    A shallow embedding of
      - [examples/ahope/data_checker/daily_test.py] (the coverage report
        [segment_report] and the per-site comparison script), and
      - [pycbc/workflow/grb_utils.py] (configuration update, retrieval of
        the coh_PTF auxiliary files, the external-trigger table, the IPN sky
        file and the gating nodes),
    together with the properties that the design document states about them.

    Python objects that are mutated in place (the configuration parser, the
    process environment and file system, segment dictionaries handed to the
    datafind stage) are modelled by explicit state passing; exceptions are
    values of [Error] carried on the left of a sum. *)

From Stdlib Require Import ZArith DecimalString DecimalZ DecimalPos Lia.
From stdpp Require Import base gmap strings list.

Open Scope Z_scope.

(* ===================================================================== *)
(** ** Exceptions and the error monad *)
(* ===================================================================== *)

(** The exceptions that the embedded code can raise. *)
Inductive Error : Type :=
  | NoSectionError (section : string)
  | NoOptionError (option_name section : string)
  | ValueError (msg : string)
  | IOError (path : string)
  | ExternalError (msg : string).

Definition result (A : Type) : Type := Error + A.

Definition ok {A} (a : A) : result A := inr a.
Definition raise {A} (e : Error) : result A := inl e.

Definition rbind {A B} (m : result A) (k : A -> result B) : result B :=
  match m with
  | inl e => inl e
  | inr a => k a
  end.

Declare Scope result_scope.
Delimit Scope result_scope with result.
Notation "'do' x <- m ; k" := (rbind m (fun x => k))
  (at level 10, x name, m at level 100, k at level 200) : result_scope.
Notation "'do' ' p <- m ; k" := (rbind m (fun p => k))
  (at level 10, p strict pattern, m at level 100, k at level 200)
  : result_scope.
Open Scope result_scope.

(** Python's [str] on an integer: its decimal numeral. *)
Definition str (z : Z) : string := NilZero.string_of_int (Z.to_int z).

(* ===================================================================== *)
(** ** Segments ([glue.segments] / [ligo.segments]) *)
(* ===================================================================== *)

Module Segments.

(** A segment is the half-open interval [[seg_lo, seg_hi)]. *)
Record segment : Type := Seg { seg_lo : Z; seg_hi : Z }.

#[export] Instance segment_eq_dec : EqDecision segment.
Proof. solve_decision. Defined.

(** The constructor [segments.segment(a, b)] orders its two bounds. *)
Definition mk_segment (a b : Z) : segment :=
  if a <=? b then Seg a b else Seg b a.

(** [abs(seg)]: the length of the segment. *)
Definition seg_abs (s : segment) : Z := seg_hi s - seg_lo s.

Definition segmentlist : Type := list segment.

(** A time [x] lies in [s]. *)
Definition seg_contains (s : segment) (x : Z) : bool :=
  (seg_lo s <=? x) && (x <? seg_hi s).

(** A time [x] is covered by the list [l]. *)
Definition covers (l : segmentlist) (x : Z) : bool :=
  existsb (fun s => seg_contains s x) l.

(** The SegmentList invariant of the data model: every segment is
    non-empty, the segments are sorted and no two of them touch. *)
Fixpoint coalesced (l : segmentlist) : bool :=
  match l with
  | [] => true
  | s :: l' =>
      (seg_lo s <? seg_hi s)
      && match l' with
         | [] => true
         | t :: _ => seg_hi s <? seg_lo t
         end
      && coalesced l'
  end.

(** Modelled from the spec: the subtraction of segment lists
    ([segmentlist.__sub__], used as [a - b] by the comparison script) is
    library code that is not part of the sources.  The design document
    describes it as "a minus covered time of b": what is left of one
    segment [s] once the time covered by [t] is removed is the part of
    [s] before [t] and the part of [s] after [t]. *)
Definition seg_minus (s t : segment) : segmentlist :=
  (if seg_lo s <? Z.min (seg_hi s) (seg_lo t)
   then [Seg (seg_lo s) (Z.min (seg_hi s) (seg_lo t))] else [])
  ++
  (if Z.max (seg_lo s) (seg_hi t) <? seg_hi s
   then [Seg (Z.max (seg_lo s) (seg_hi t)) (seg_hi s)] else []).

(** Modelled from the spec: remove the time covered by [t] from every
    segment of a list. *)
Definition minus_seg (t : segment) (a : segmentlist) : segmentlist :=
  flat_map (fun s => seg_minus s t) a.

(** Modelled from the spec: [difference(a, b)], "a minus covered time of
    b"; the segments of [b] are removed from [a] one after the other. *)
Definition difference (a b : segmentlist) : segmentlist :=
  fold_left (fun acc t => minus_seg t acc) b a.

(** The overlap of two segments, when it is not empty. *)
Definition seg_overlap (s t : segment) : segmentlist :=
  if Z.max (seg_lo s) (seg_lo t) <? Z.min (seg_hi s) (seg_hi t)
  then [Seg (Z.max (seg_lo s) (seg_lo t)) (Z.min (seg_hi s) (seg_hi t))]
  else [].

(** Modelled from the spec: [intersect(a, b)] (the library's
    [segmentlist.__and__], not part of the sources) "returns overlap;
    result sorted, coalesced".  The two sorted lists are swept together:
    the overlap of the two leading segments is emitted and the segment
    that ends first is dropped. *)
Fixpoint intersect (a b : segmentlist) : segmentlist :=
  match a with
  | [] => []
  | s :: a' =>
      (fix sweep (b : segmentlist) : segmentlist :=
         match b with
         | [] => []
         | t :: b' =>
             seg_overlap s t ++
             (if seg_hi s <? seg_hi t then intersect a' b
              else if seg_hi t <? seg_hi s then sweep b'
              else intersect a' b')
         end) b
  end.

(** [p] lies within [s]. *)
Definition within (p s : segment) : Prop :=
  seg_lo s <= seg_lo p /\ seg_hi p <= seg_hi s.

(** The list [l] starts after the time [m], with a gap. *)
Definition above (m : Z) (l : segmentlist) : Prop :=
  match l with
  | [] => True
  | q :: _ => m < seg_lo q
  end.

(** *** The store of segment-list objects

    Python's segment lists are mutable objects.  To state that an
    operation has no side effect the objects live in a store and the
    operation is a function from stores to stores. *)

Abbreviation ref := nat.
Abbreviation store := (gmap nat segmentlist).

(** Allocation of a new object. *)
Definition alloc (v : segmentlist) (st : store) : ref * store :=
  let r := fresh (dom st) in (r, <[r := v]> st).

(** Modelled from the spec: [a - b] on objects.  The operations of the
    segment algebra are "pure functions over SegmentList/SegmentDict, no
    side effects": the result is a new object.  An operand that is not in
    the store is a dangling name ([None]). *)
Definition op_sub (a b : ref) (st : store) : option (ref * store) :=
  match st !! a, st !! b with
  | Some la, Some lb => Some (alloc (difference la lb) st)
  | _, _ => None
  end.

(** Modelled from the spec: [a & b] on objects, likewise a new object. *)
Definition op_and (a b : ref) (st : store) : option (ref * store) :=
  match st !! a, st !! b with
  | Some la, Some lb => Some (alloc (intersect la lb) st)
  | _, _ => None
  end.

End Segments.

(* ===================================================================== *)
(** ** [examples/ahope/data_checker/daily_test.py] *)
(* ===================================================================== *)

Module DailyTest.
Import Segments.

(** A segment dictionary ([segmentlistdict]): instrument name to segment
    list.  The entries are kept in the iteration order of [keys()], which
    the report depends on; the keys of a dictionary are distinct. *)
Definition SegmentDict : Type := list (string * segmentlist).

(** [d[ifo]], for a key that may be absent. *)
Fixpoint getitem (d : SegmentDict) (ifo : string) : option segmentlist :=
  match d with
  | [] => None
  | (k, v) :: d' => if decide (k = ifo) then Some v else getitem d' ifo
  end.

(** The six counters of [segment_report]. *)
Record counters : Type := Counters {
  fullLen : Z;  fullNum : Z;
  shortLen : Z; shortNum : Z;
  longLen : Z;  longNum : Z
}.

#[export] Instance counters_eq_dec : EqDecision counters.
Proof. solve_decision. Defined.

Definition counters0 : counters := Counters 0 0 0 0 0 0.

(** The body of the inner loop, [for seg in sSegs[ifo]]. *)
Definition count_seg (c : counters) (seg : segment) : counters :=
  let c1 := Counters (fullLen c + seg_abs seg) (fullNum c + 1)
                     (shortLen c) (shortNum c) (longLen c) (longNum c) in
  let c2 := if 500 <? seg_abs seg
            then Counters (fullLen c1) (fullNum c1)
                          (shortLen c1 + seg_abs seg) (shortNum c1 + 1)
                          (longLen c1) (longNum c1)
            else c1 in
  if 2000 <? seg_abs seg
  then Counters (fullLen c2) (fullNum c2) (shortLen c2) (shortNum c2)
                (longLen c2 + seg_abs seg) (longNum c2 + 1)
  else c2.

Definition count_segs (c : counters) (segs : segmentlist) : counters :=
  fold_left count_seg segs c.

(** One printed line: "For ifo %s there is %d seconds of data in %d
    segments, ..." with the values substituted for the seven holes. *)
Definition report_line : Type := string * counters.

(** The outer loop, [for ifo in sSegs.keys()]: the counters are those
    that the previous instruments left, and a line is printed after the
    segments of each instrument. *)
Fixpoint report_loop (c : counters) (sSegs : SegmentDict)
  : list report_line :=
  match sSegs with
  | [] => []
  | (ifo, segs) :: rest =>
      let c' := count_segs c segs in
      (ifo, c') :: report_loop c' rest
  end.

(** [segment_report(sSegs)]: the counters are set to zero once, before
    the loop over the instruments; the result is the printed lines. *)
Definition segment_report (sSegs : SegmentDict) : list report_line :=
  report_loop counters0 sSegs.

(** The aggregate coverage of one instrument's segments alone. *)
Definition coverage (segs : segmentlist) : counters :=
  count_segs counters0 segs.

(** The report in which every line holds the coverage of its own
    instrument. *)
Definition per_instrument_report (sSegs : SegmentDict)
  : list report_line :=
  map (fun '(ifo, segs) => (ifo, coverage segs)) sSegs.

(** *** The comparison of two sites

    The dictionaries are mutable objects; the script deep-copies the
    baseline before it hands the copy to the datafind stage. *)

Abbreviation dref := nat.
Abbreviation dstore := (gmap nat SegmentDict).

(** [copy.deepcopy(d)]: a new object with the same contents. *)
Definition deepcopy (r : dref) (st : dstore) : option (dref * dstore) :=
  match st !! r with
  | Some d => let r' := fresh (dom st) in Some (r', <[r' := d]> st)
  | None => None
  end.

(** One printed line of a "Frames present at ... and not at ..." block:
    the difference of the two segment lists, or the notice that the other
    site has no segments for the instrument. *)
Inductive diff_line : Type :=
  | Difference (ifo : string) (d : segmentlist)
  | NoScienceSegments (ifo : string) (site : string).

(** [for ifo in segs1.keys(): if ifo in segs2.keys(): print (segs1[ifo]
    - segs2[ifo]) else: print "No science segments for ifo ... at
    site2"]. *)
Definition frames_present (segs1 segs2 : SegmentDict) (site2 : string)
  : list diff_line :=
  map (fun '(ifo, l1) =>
         match getitem segs2 ifo with
         | Some l2 => Difference ifo (difference l1 l2)
         | None => NoScienceSegments ifo site2
         end) segs1.

(** What the script prints for a pair of sites. *)
Record comparison : Type := Comparison {
  report_first : list report_line;
  report_second : list report_line;
  first_not_second : list diff_line;
  second_not_first : list diff_line
}.

(** The same output read with the two sites exchanged. *)
Definition exchange (c : comparison) : comparison :=
  Comparison (report_second c) (report_first c)
             (second_not_first c) (first_not_second c).

Section Script.

(** The availability lookup of the datafind stage
    ([ahope.setup_datafind_workflow], not part of the sources), taken
    as a parameter: from the tag of the site and the science segments
    to the science segments for which the site has frames. *)
Variable site_segments : string -> SegmentDict -> SegmentDict.

(** Modelled from the spec: [datafinds, segs =
    ahope.setup_datafind_workflow(workflow, segs, dir, segsList,
    tag=site)], the query of the science segments against one site.  The
    stage updates the dictionary it is given and hands the same object
    back, which is why the script deep-copies the baseline. *)
Definition setup_datafind_workflow (site : string) (r : dref)
           (st : dstore) : option (dref * dstore) :=
  match st !! r with
  | Some d => Some (r, <[r := site_segments site d]> st)
  | None => None
  end.

(** The script for one pair of sites, [site1] queried first: deep copy
    and query for [site1], its report, deep copy and query for [site2],
    its report, then the two blocks of differences. *)
Definition compare_sites (site1 site2 : string) (scienceSegs : dref)
           (st : dstore) : option (comparison * dstore) :=
  '(r1, st) ← deepcopy scienceSegs st;
  '(r1, st) ← setup_datafind_workflow site1 r1 st;
  segs1 ← st !! r1;
  let rep1 := segment_report segs1 in
  '(r2, st) ← deepcopy scienceSegs st;
  '(r2, st) ← setup_datafind_workflow site2 r2 st;
  segs2 ← st !! r2;
  let rep2 := segment_report segs2 in
  segs1 ← st !! r1;
  Some (Comparison rep1 rep2
          (frames_present segs1 segs2 site2)
          (frames_present segs2 segs1 site1), st).

End Script.

End DailyTest.

(* ===================================================================== *)
(** ** [pycbc/workflow/grb_utils.py] *)
(* ===================================================================== *)

Module GrbUtils.
Import Segments.

(** *** The configuration parser

    Options grouped by section.  [get] and [set] are those of Python's
    [ConfigParser]: both raise [NoSectionError] for a section that does
    not exist, and [get] raises [NoOptionError] for a missing option.  The
    parser is taken after interpolation, without a [DEFAULT] section. *)
Abbreviation ConfigParser := (gmap string (gmap string string)).

(** The value stored under [section]/[option], if any. *)
Definition entry (cp : ConfigParser) (section option_name : string)
  : option string :=
  cp !! section ≫= (fun sec => sec !! option_name).

Definition cp_get (cp : ConfigParser) (section option_name : string)
  : result string :=
  match cp !! section with
  | None => raise (NoSectionError section)
  | Some sec =>
      match sec !! option_name with
      | None => raise (NoOptionError option_name section)
      | Some v => ok v
      end
  end.

(** [cp.set(section, option, value)] updates the parser in place: the
    outcome comes with the parser as the call leaves it. *)
Definition cp_set (section option_name value : string) (cp : ConfigParser)
  : result unit * ConfigParser :=
  match cp !! section with
  | None => (raise (NoSectionError section), cp)
  | Some sec => (ok tt, <[section := <[option_name := value]> sec]> cp)
  end.

(** [set_grb_start_end(cp, start, end)].  The function returns [cp]
    itself, that is the parser in the state of the second component. *)
Definition set_grb_start_end (cp : ConfigParser) (start end_ : Z)
  : result unit * ConfigParser :=
  match cp_set "workflow" "start-time" (str start) cp with
  | (inl e, cp1) => (inl e, cp1)
  | (inr _, cp1) => cp_set "workflow" "end-time" (str end_) cp1
  end.

(** *** Files *)

(** Modelled from the spec: the [File] of [pycbc.workflow.core], which is
    not part of the sources.  A File has the instruments it belongs to,
    a logical name, a validity segment, the URL it was made from, a tag
    list and an ordered collection of physical file names, each with its
    site label. *)
Record File : Type := MkFile {
  file_ifo : string;
  file_name : string;
  file_segment : segment;
  file_url : string;
  file_tags : list string;
  pfns : list (string * string)
}.

Definition FileList : Type := list File.

(** Modelled from the spec: the constructor [File(ifos, name, segment,
    file_url=url)]; a new File has no physical file name yet. *)
Definition new_File (ifos name : string) (seg : segment) (url : string)
  : File :=
  MkFile ifos name seg url [] [].

Definition set_pfns (f : File) (l : list (string * string)) : File :=
  MkFile (file_ifo f) (file_name f) (file_segment f) (file_url f)
         (file_tags f) l.

(** Modelled from the spec: [add_pfn(file, path, site)] "appends an
    alternate physical location; no-op if (path, site) already present
    (idempotent)". *)
Definition add_pfn (f : File) (path site : string) : File :=
  if decide ((path, site) ∈ pfns f) then f
  else set_pfns f (pfns f ++ [(path, site)]).

(** *** The external-trigger row *)

(** The values a column of the row can hold; [real] stands for Python's
    floats. *)
Inductive Value (real : Type) : Type :=
  | VReal (r : real)
  | VInt (z : Z)
  | VStr (s : string).
Arguments VReal {real} r.
Arguments VInt {real} z.
Arguments VStr {real} s.

(** A row object: the attributes that have been set on it. *)
Abbreviation Row real := (gmap string (Value real)).

(** *** The process environment and the file system *)

(** What a call does to the outside world, in the order it happens. *)
Inductive event (real : Type) : Type :=
  | Copied (src dst : string)
  | FileCreated (name : string)
  | XmlWritten (path : string) (row : Row real).
Arguments Copied {real} src dst.
Arguments FileCreated {real} name.
Arguments XmlWritten {real} path row.

(** The environment variables, the paths on which the operating system
    refuses an operation, and the events so far. *)
Record World (real : Type) : Type := MkWorld {
  environ : gmap string string;
  denied : gset string;
  trace : list (event real)
}.
Arguments MkWorld {real} environ denied trace.
Arguments environ {real} w.
Arguments denied {real} w.
Arguments trace {real} w.

(** The workflow object, as far as these functions read it. *)
Record Workflow : Type := MkWorkflow {
  wf_cp : ConfigParser;
  wf_ifos : list string;
  wf_analysis_time : segment
}.

(** The [attrs] dictionary given to [resolve_url_to_file]. *)
Record FileAttrs : Type := MkFileAttrs {
  attr_ifos : list string;
  attr_segs : segment;
  attr_exe_name : string;
  attr_tags : list string
}.

Declare Scope world_scope.
Delimit Scope world_scope with world.

Section Functions.

Context {real : Type}.

Definition log (e : event real) (w : World real) : World real :=
  MkWorld (environ w) (denied w) (trace w ++ [e]).

(** Computations that may raise and that act on the world. *)
Definition W (A : Type) : Type := World real -> result A * World real.

Definition wret {A} (a : A) : W A := fun w => (ok a, w).
Definition wraise {A} (e : Error) : W A := fun w => (raise e, w).
Definition wbind {A B} (m : W A) (k : A -> W B) : W B :=
  fun w =>
    match m w with
    | (inl e, w') => (inl e, w')
    | (inr a, w') => k a w'
    end.
Definition lift {A} (r : result A) : W A := fun w => (r, w).

Notation "'do' x <- m ; k" := (wbind m (fun x => k))
  (at level 10, x name, m at level 100, k at level 200) : world_scope.

(** [os.getenv(name)]. *)
Definition getenv (name : string) : W (option string) :=
  fun w => (ok (environ w !! name), w).

(** [shutil.copy(src, dst)]. *)
Definition shutil_copy (src dst : string) : W unit :=
  fun w =>
    if decide (src ∈ denied w) then (raise (IOError src), w)
    else if decide (dst ∈ denied w) then (raise (IOError dst), w)
    else (ok tt, log (Copied src dst) w).

(** The construction of a File object, recorded in the trace. *)
Definition create_File (ifos name : string) (seg : segment)
           (url : string) : W File :=
  fun w => (ok (new_File ifos name seg url), log (FileCreated name) w).

(** [utils.write_filename(xmldoc, path)], for a document that holds
    the one row [row]. *)
Definition write_filename (row : Row real) (path : string) : W unit :=
  fun w =>
    if decide (path ∈ denied w) then (raise (IOError path), w)
    else (ok tt, log (XmlWritten path row) w).

(** Built-in conversions and library calls, taken as parameters. *)

(** The float literal [0.] and the conversion [float(s)]. *)
Variable real_zero : real.
Variable py_float : string -> option real.
(** [int(s)]. *)
Variable py_int : string -> option Z.
(** [file.cache_entry.path], from the URL of the File. *)
Variable url_path : string -> string.
(** [os.path.join(dir, name)]. *)
Variable path_join : string -> string -> string.
(** [urljoin("file:", pathname2url(path))]. *)
Variable file_url_of_path : string -> string.

Definition to_float (s : string) : result real :=
  match py_float s with
  | Some r => ok r
  | None => raise (ValueError ("could not convert string to float: " +:+ s))
  end.

Definition to_int (s : string) : result Z :=
  match py_int s with
  | Some z => ok z
  | None =>
      raise (ValueError ("invalid literal for int() with base 10: " +:+ s))
  end.

(** **** [get_coh_PTF_files] *)

Definition coh_PTF_config_files : string :=
  "/lalapps/src/ring/coh_PTF_config_files/".

(** Copy one auxiliary file into the run directory and register it:
    the four statements that the function repeats for each file. *)
Definition retrieve (lalDir run_dir ifos base description : string)
           (sci_seg : segment) (file_list : FileList) : W FileList :=
  (do _ <- shutil_copy (lalDir +:+ coh_PTF_config_files +:+ base)
                       run_dir;
   let url := "file://localhost" +:+ run_dir +:+ "/" +:+ base in
   do f <- create_File ifos description sci_seg url;
   let f := add_pfn f (url_path (file_url f)) "local" in
   wret (file_list ++ [f]))%world.

Definition get_coh_PTF_files (cp : ConfigParser) (ifos run_dir : string)
           (bank_veto summary_files : bool) : W FileList :=
  (do env <- getenv "LAL_SRC";
   match env with
   | None =>
       wraise (ValueError
         ("The environment variable LAL_SRC must be set to a "
          +:+ "location containing the file lalsuite.git"))
   | Some lalDir =>
       do start <- lift (rbind (cp_get cp "workflow" "start-time") to_int);
       do end_ <- lift (rbind (cp_get cp "workflow" "end-time") to_int);
       let sci_seg := mk_segment start end_ in
       let file_list : FileList := [] in
       do file_list <-
         (if bank_veto
          then retrieve lalDir run_dir ifos "bank_veto_bank.xml"
                        "bank_veto_bank" sci_seg file_list
          else wret file_list);
       do file_list <-
         (if summary_files
          then
            do file_list <-
              retrieve lalDir run_dir ifos "coh_PTF_html_summary.js"
                       "coh_PTF_html_summary_js" sci_seg file_list;
            retrieve lalDir run_dir ifos "coh_PTF_html_summary.css"
                     "coh_PTF_html_summary_css" sci_seg file_list
          else wret file_list);
       wret file_list
   end)%world.

(** **** [make_exttrig_file] *)

(** [lsctables.ExtTriggersTable.validcolumns]: the columns of the table
    with the kind of each, in the order of [cols.keys()].  The table
    belongs to a library and is taken as a parameter. *)
Variable validcolumns : list (string * string).

(** "Add known attributes for this GRB": four [setattr] on the new,
    empty row. *)
Definition known_attributes (cp : ConfigParser) : result (Row real) :=
  let row : Row real := ∅ in
  do ra <- rbind (cp_get cp "workflow" "ra") to_float;
  let row := <["event_ra" := VReal ra]> row in
  do dec <- rbind (cp_get cp "workflow" "dec") to_float;
  let row := <["event_dec" := VReal dec]> row in
  do t <- rbind (cp_get cp "workflow" "trigger-time") to_int;
  let row := <["start_time" := VInt t]> row in
  do name <- cp_get cp "workflow" "trigger-name";
  let row := <["event_number_grb" := VStr name]> row in
  ok row.

(** [hasattr(row, entry)]. *)
Definition hasattr (row : Row real) (entry_name : string) : bool :=
  bool_decide (is_Some (row !! entry_name)).

Definition in_list (x : string) (l : list string) : bool :=
  bool_decide (x ∈ l).

(** "Fill in all empty rows": the loop over [cols.keys()], with
    [cols[entry]] the kind of the column. *)
Fixpoint fill_empty (cols : list (string * string)) (row : Row real)
  : result (Row real) :=
  match cols with
  | [] => ok row
  | (entry_name, kind) :: rest =>
      if hasattr row entry_name then fill_empty rest row
      else if in_list kind ["real_4"; "real_8"]
      then fill_empty rest (<[entry_name := VReal real_zero]> row)
      else if in_list kind ["int_4s"; "int_8s"]
      then fill_empty rest (<[entry_name := VInt 0]> row)
      else if bool_decide (kind = "lstring")
      then fill_empty rest (<[entry_name := VStr ""]> row)
      else if bool_decide (entry_name = "process_id")
      then fill_empty rest (<["process_id" := VInt 0]> row)
      else if bool_decide (entry_name = "event_id")
      then fill_empty rest (<["event_id" := VInt 0]> row)
      else raise (ValueError
                    ("Column " +:+ entry_name +:+ " not recognized"))
  end.

(** The attributes that are set from the configuration. *)
Definition known_columns : list string :=
  ["event_ra"; "event_dec"; "start_time"; "event_number_grb"].

(** The default of a column as the design document tells it: by the
    declared kind of the column, and 0 for the two identifier columns;
    [None] for a column that is not recognized. *)
Definition kind_default (entry_name kind : string)
  : option (Value real) :=
  if bool_decide (kind = "real_4" \/ kind = "real_8")
  then Some (VReal real_zero)
  else if bool_decide (kind = "int_4s" \/ kind = "int_8s")
  then Some (VInt 0)
  else if bool_decide (kind = "lstring") then Some (VStr "")
  else if bool_decide (entry_name = "process_id"
                       \/ entry_name = "event_id")
  then Some (VInt 0)
  else None.

(** A column that the function can fill: one of the known attributes,
    or one that has a default. *)
Definition fillable (col : string * string) : Prop :=
  col.1 ∈ known_columns \/ is_Some (kind_default col.1 col.2).

#[export] Instance fillable_dec col : Decision (fillable col).
Proof. unfold fillable. apply _. Defined.

(** A column that the loop can fill when it starts from the row
    [row]: it is set already, or it has a default. *)
Definition can_fill (row : Row real) (col : string * string) : Prop :=
  is_Some (row !! col.1) \/ is_Some (kind_default col.1 col.2).

(** The row of the external-trigger table, as it is when the loop is
    over. *)
Definition exttrig_row (cp : ConfigParser) : result (Row real) :=
  do row <- known_attributes cp;
  fill_empty validcolumns row.

Definition make_exttrig_file (cp : ConfigParser) (ifos : string)
           (sci_seg : segment) (out_dir : string) : W File :=
  (do row <- lift (exttrig_row cp);
   do name <- lift (cp_get cp "workflow" "trigger-name");
   let xml_file_name := "triggerGRB" +:+ name +:+ ".xml" in
   let xml_file_path := path_join out_dir xml_file_name in
   do _ <- write_filename row xml_file_path;
   let xml_file_url := file_url_of_path xml_file_path in
   do xml_file <- create_File ifos xml_file_name sci_seg xml_file_url;
   let xml_file := add_pfn xml_file xml_file_url "local" in
   wret xml_file)%world.

(** **** [get_ipn_sky_files] *)

(** [resolve_url_to_file(url, attrs=...)] of [pycbc.workflow.core],
    taken as a parameter. *)
Variable resolve_url_to_file : string -> FileAttrs -> result File.

(** [tags or []]: [None] and the empty list are both false. *)
Definition tags_or_empty (tags : option (list string)) : list string :=
  match tags with
  | None => []
  | Some [] => []
  | Some (t :: ts) => t :: ts
  end.

Definition get_ipn_sky_files (workflow : Workflow) (url : string)
           (tags : option (list string)) : result File :=
  let tags := tags_or_empty tags in
  let file_attrs :=
    MkFileAttrs (wf_ifos workflow) (wf_analysis_time workflow)
                "IPN_SKY_POINTS" tags in
  resolve_url_to_file url file_attrs.

(** **** [make_gating_node] *)

(** The executable classes, jobs and nodes of [pycbc.workflow], taken
    as parameters: [select_generic_executable(workflow, name)] gives a
    class, calling the class gives a job, and [job.create_node(files,
    tags=tags)] gives a node and its output file. *)
Context {ExeClass Job Node : Type}.
Variable select_generic_executable :
  Workflow -> string -> result ExeClass.
Variable new_job :
  ExeClass -> ConfigParser -> string -> string -> option string ->
  list string -> result Job.
Variable create_node :
  Job -> FileList -> list string -> result (Node * File).

(** The loop [for ifo in workflow.ifos], with the two lists it
    appends to. *)
Fixpoint gating_loop (cls : ExeClass) (cp : ConfigParser)
         (datafind_files : FileList) (outdir : option string)
         (tags : list string) (ifos : list string)
         (nodes : list Node) (outs : FileList)
  : result (list Node * FileList) :=
  match ifos with
  | [] => ok (nodes, outs)
  | ifo :: rest =>
      let input_files :=
        filter (fun datafind_file => file_ifo datafind_file = ifo)
               datafind_files in
      do condition_strain_jobs <-
        new_job cls cp "condition_strain" ifo outdir tags;
      do '(condition_strain_node, condition_strain_out) <-
        create_node condition_strain_jobs input_files tags;
      gating_loop cls cp datafind_files outdir tags rest
                  (nodes ++ [condition_strain_node])
                  (outs ++ [condition_strain_out])
  end.

Definition make_gating_node (workflow : Workflow)
           (datafind_files : FileList) (outdir : option string)
           (tags : option (list string))
  : result (list Node * FileList) :=
  let cp := wf_cp workflow in
  let tags := match tags with None => [] | Some t => t end in
  do condition_strain_class <-
    select_generic_executable workflow "condition_strain";
  gating_loop condition_strain_class cp datafind_files outdir tags
              (wf_ifos workflow) [] [].

(** The calls made for one instrument in the loop of
    [make_gating_node]: the job of the instrument, then its node on
    the datafind files of that instrument. *)
Definition gating_call (cls : ExeClass) (cp : ConfigParser)
           (datafind_files : FileList) (outdir : option string)
           (tags : list string) (ifo : string) (r : Node * File)
  : Prop :=
  exists job,
    new_job cls cp "condition_strain" ifo outdir tags = ok job
    /\ create_node job
         (filter (fun f => file_ifo f = ifo) datafind_files) tags
       = ok r.

End Functions.

End GrbUtils.

(* ===================================================================== *)
(** ** Concrete parameters, to run the functions on examples *)
(* ===================================================================== *)

Module Examples.
Import Segments GrbUtils.

(** A conversion that reads plain decimal numerals. *)
Definition decimal (s : string) : option Z :=
  Z.of_int <$> NilZero.int_of_string s.

(** The path of a "file://localhost/..." URL. *)
Definition path_of_url (url : string) : string :=
  String.substring 16 (String.length url - 16) url.

Definition join (dir name : string) : string := dir +:+ "/" +:+ name.

Definition url_of_path (path : string) : string := "file://" +:+ path.

(** A configuration for the trigger GRB 100101A. *)
Definition grb_cp : ConfigParser :=
  {[ "workflow" :=
       {[ "start-time" := "1000"; "end-time" := "5000";
          "ra" := "12"; "dec" := "-7";
          "trigger-time" := "3000"; "trigger-name" := "100101A" ]} ]}.

(** A configuration whose analysis times have not been set yet. *)
Definition cp_without_times : ConfigParser :=
  {[ "workflow" := {[ "ra" := "12"; "dec" := "-7" ]} ]}.

(** A short table of columns with their kinds. *)
Definition columns : list (string * string) :=
  [ ("process_id", "ilwd:char"); ("det_alts", "lstring");
    ("event_ra", "real_4"); ("event_dec", "real_4");
    ("start_time", "int_4s"); ("start_time_ns", "int_4s");
    ("event_number_grb", "lstring"); ("event_z", "real_4");
    ("event_id", "ilwd:char") ].

(** A world with [LAL_SRC] set and nothing refused. *)
Definition world : World Z :=
  MkWorld {[ "LAL_SRC" := "/opt/lalsuite" ]} ∅ [].

(** A job is its instrument and a node is the instrument with the names
    of its input files. *)
Definition job_of (cls : unit) (cp : ConfigParser) (name ifo : string)
           (outdir : option string) (tags : list string)
  : result string := ok ifo.

Definition node_of (job : string) (files : FileList) (tags : list string)
  : result ((string * list string) * File) :=
  ok ((job, file_name <$> files),
      new_File job "GATED" (Seg 0 1) ("gated-" +:+ job)).

Definition frame (ifo name : string) : File :=
  new_File ifo name (Seg 0 1) ("file://localhost/frames/" +:+ name).

Definition two_ifo_workflow : Workflow :=
  MkWorkflow grb_cp ["H1"; "L1"] (Seg 1000 5000).

End Examples.

(* ===================================================================== *)
(** ** The whole of [daily_test.py], and notions used to state properties *)
(* ===================================================================== *)

Module DailyScript.
Import Segments DailyTest.

(** Counters added field by field. *)
Definition counters_add (a b : counters) : counters :=
  Counters (fullLen a + fullLen b) (fullNum a + fullNum b)
           (shortLen a + shortLen b) (shortNum a + shortNum b)
           (longLen a + longLen b) (longNum a + longNum b).

(** What holds of the counters whatever the segments are: a segment
    longer than 2000s is longer than 500s, and the lengths that are added
    exceed the thresholds. *)
Definition counters_inv (c : counters) : Prop :=
  0 <= longNum c /\ longNum c <= shortNum c /\ shortNum c <= fullNum c
  /\ longLen c <= shortLen c
  /\ 500 * shortNum c <= shortLen c
  /\ 2000 * longNum c <= longLen c.

(** A segment whose bounds are in order, as the constructor of segments
    leaves them. *)
Definition ordered (s : segment) : Prop := seg_lo s <= seg_hi s.

(** What the script prints: a coverage report, or a block "Frames present
    at [site1] and not at [site2]" with one line per instrument. *)
Inductive printed : Type :=
  | Report (lines : list report_line)
  | FramesPresent (site1 site2 : string) (lines : list diff_line).

Section Script.

Variable site_segments : string -> SegmentDict -> SegmentDict.

(** [segs = copy.deepcopy(scienceSegs); datafinds, segs =
    ahope.setup_datafind_workflow(workflow, segs, dir, segsList,
    tag=site)]. *)
Definition query_site (site : string) (scienceSegs : dref) (st : dstore)
  : option (dref * dstore) :=
  '(r, st) ← deepcopy scienceSegs st;
  setup_datafind_workflow site_segments site r st.

(** The two loops that follow a query: the frames present at [site1] and
    not at [site2], then those present at [site2] and not at [site1]. *)
Definition print_frames (site1 site2 : string) (r1 r2 : dref) (st : dstore)
  : option (list printed) :=
  segs1 ← st !! r1;
  segs2 ← st !! r2;
  Some [ FramesPresent site1 site2 (frames_present segs1 segs2 site2);
         FramesPresent site2 site1 (frames_present segs2 segs1 site1) ].

(** A later site of the script: [scienceSegsS] is bound to a new copy,
    queried, reported and compared with the segments of CIT, which
    [scienceSegsC] still names. *)
Definition next_site (site : string) (scienceSegs scienceSegsC : dref)
           (st : dstore) : option (list printed * dstore) :=
  '(scienceSegsS, st) ← query_site site scienceSegs st;
  segsS ← st !! scienceSegsS;
  frames ← print_frames site "CIT" scienceSegsS scienceSegsC st;
  Some (Report (segment_report segsS) :: frames, st).

(** The script from the first report on: the report of the science
    segments, SYR, CIT and their comparison, then LHO, LLO and UWM, each
    compared with CIT. *)
Definition daily_test (scienceSegs : dref) (st : dstore)
  : option (list printed * dstore) :=
  segs ← st !! scienceSegs;
  let out0 := [Report (segment_report segs)] in
  '(scienceSegsS, st) ← query_site "SYR" scienceSegs st;
  segsS ← st !! scienceSegsS;
  '(scienceSegsC, st) ← query_site "CIT" scienceSegs st;
  segsC ← st !! scienceSegsC;
  frames ← print_frames "SYR" "CIT" scienceSegsS scienceSegsC st;
  let out1 := [Report (segment_report segsS); Report (segment_report segsC)]
              ++ frames in
  '(out2, st) ← next_site "LHO" scienceSegs scienceSegsC st;
  '(out3, st) ← next_site "LLO" scienceSegs scienceSegsC st;
  '(out4, st) ← next_site "UWM" scienceSegs scienceSegsC st;
  Some (out0 ++ out1 ++ out2 ++ out3 ++ out4, st).

(** What is printed for a site compared with CIT, from the segments of
    the two. *)
Definition site_output (site : string) (segs segsC : SegmentDict)
  : list printed :=
  [ Report (segment_report segs);
    FramesPresent site "CIT" (frames_present segs segsC "CIT");
    FramesPresent "CIT" site (frames_present segsC segs site) ].

End Script.

End DailyScript.

(* ===================================================================== *)
(** ** The effects of [grb_utils] on the world *)
(* ===================================================================== *)

Module GrbEffects.
Import Segments GrbUtils.


(** The path that [get_coh_PTF_files] copies the file [base] from. *)
Definition aux_source (lalDir base : string) : string :=
  lalDir +:+ coh_PTF_config_files +:+ base.

(** The URL that [get_coh_PTF_files] gives the copy of [base]. *)
Definition aux_url (run_dir base : string) : string :=
  "file://localhost" +:+ run_dir +:+ "/" +:+ base.

(** The names and descriptions of the auxiliary files that the flags ask
    for, in the order in which the function retrieves them. *)
Definition aux_files (bank_veto summary_files : bool)
  : list (string * string) :=
  (if bank_veto then [("bank_veto_bank.xml", "bank_veto_bank")] else [])
  ++ (if summary_files
      then [ ("coh_PTF_html_summary.js", "coh_PTF_html_summary_js");
             ("coh_PTF_html_summary.css", "coh_PTF_html_summary_css") ]
      else []).

(** The events of one retrieval. *)
Definition aux_events {real} (lalDir run_dir : string)
           (file : string * string) : list (event real) :=
  [Copied (aux_source lalDir file.1) run_dir; FileCreated file.2].

(** The File that one retrieval registers. *)
Definition aux_File (url_path : string -> string) (ifos run_dir : string)
           (sci_seg : segment) (file : string * string) : File :=
  MkFile ifos file.2 sci_seg (aux_url run_dir file.1) []
         [(url_path (aux_url run_dir file.1), "local")].

End GrbEffects.

(* ===================================================================== *)
(** ** Further concrete inputs *)
(* ===================================================================== *)

Module MoreExamples.
Import Segments DailyTest GrbUtils.

(** A world in which the summary script cannot be read. *)
Definition world_js_refused : World Z :=
  MkWorld {[ "LAL_SRC" := "/opt/lalsuite" ]}
          {[ "/opt/lalsuite/lalapps/src/ring/coh_PTF_config_files/coh_PTF_html_summary.js" ]}
          [].

(** A job class that has no job for L1. *)
Definition job_unless_L1 (cls : unit) (cp : ConfigParser)
           (name ifo : string) (outdir : option string) (tags : list string)
  : result string :=
  if decide (ifo = "L1") then raise (ExternalError "no job for L1")
  else ok ifo.

(** Frame files of three instruments, one of them not in the workflow. *)
Definition frames : FileList :=
  [ Examples.frame "H1" "H-1.gwf"; Examples.frame "V1" "V-1.gwf";
    Examples.frame "L1" "L-1.gwf"; Examples.frame "H1" "H-2.gwf" ].

(** Two columns, in the two possible orders. *)
Definition two_columns : list (string * string) :=
  [("det_alts", "lstring"); ("start_time_ns", "int_4s")].

Definition two_columns_swapped : list (string * string) :=
  [("start_time_ns", "int_4s"); ("det_alts", "lstring")].

Definition two_columns_row : Row Z :=
  <["start_time_ns" := VInt 0]> (<["det_alts" := VStr ""]> ∅).

End MoreExamples.

(* ===================================================================== *)
(** * Properties *)
(* ===================================================================== *)

Import Segments DailyTest GrbUtils.

(** ** The segment algebra *)

Lemma seg_contains_spec s x :
  seg_contains s x = true <-> seg_lo s <= x < seg_hi s.
Proof. unfold seg_contains. rewrite andb_true_iff. lia. Qed.

Lemma covers_app l1 l2 x : covers (l1 ++ l2) x = covers l1 x || covers l2 x.
Proof. unfold covers. apply existsb_app. Qed.

Lemma covers_seg_minus s t x :
  covers (seg_minus s t) x = seg_contains s x && negb (seg_contains t x).
Proof.
  unfold seg_minus. rewrite covers_app.
  apply eq_true_iff_eq.
  rewrite orb_true_iff, andb_true_iff, negb_true_iff.
  rewrite seg_contains_spec, <- not_true_iff_false, seg_contains_spec.
  repeat case_match; unfold covers; simpl;
    rewrite ?orb_false_r, ?seg_contains_spec; simpl; lia.
Qed.

Lemma covers_minus_seg t a x :
  covers (minus_seg t a) x = covers a x && negb (seg_contains t x).
Proof.
  induction a as [|s a IH]; [done|].
  change (minus_seg t (s :: a)) with (seg_minus s t ++ minus_seg t a).
  rewrite covers_app, covers_seg_minus, IH. simpl.
  destruct (seg_contains s x), (covers a x), (seg_contains t x); done.
Qed.

(** The modelled difference covers the times of [a] that [b] does not
    cover. *)
Lemma covers_difference a b x :
  covers (difference a b) x = covers a x && negb (covers b x).
Proof.
  unfold difference. revert a.
  induction b as [|t b IH]; intros a; simpl.
  - by rewrite andb_true_r.
  - rewrite IH, covers_minus_seg.
    destruct (covers a x), (seg_contains t x), (covers b x); done.
Qed.

Lemma minus_seg_app t a1 a2 :
  minus_seg t (a1 ++ a2) = minus_seg t a1 ++ minus_seg t a2.
Proof. unfold minus_seg. apply flat_map_app. Qed.

Lemma difference_app a1 a2 b :
  difference (a1 ++ a2) b = difference a1 b ++ difference a2 b.
Proof.
  unfold difference. revert a1 a2.
  induction b as [|t b IH]; intros a1 a2; simpl; [done|].
  by rewrite minus_seg_app, IH.
Qed.

Lemma difference_nil_l b : difference [] b = [].
Proof. unfold difference. induction b; simpl; auto. Qed.

Lemma seg_minus_within p t q : q ∈ seg_minus p t -> within q p.
Proof.
  unfold seg_minus, within. intros Hq.
  apply elem_of_app in Hq as [Hq|Hq]; case_match; try by inversion Hq.
  all: apply list_elem_of_singleton in Hq as ->; simpl; lia.
Qed.

Lemma seg_minus_covered p s : within p s -> seg_minus p s = [].
Proof.
  unfold within, seg_minus. intros [? ?].
  rewrite !(proj2 (Z.ltb_ge _ _)); [done| lia | lia].
Qed.

Lemma minus_seg_within t acc s :
  Forall (fun p => within p s) acc ->
  Forall (fun p => within p s) (minus_seg t acc).
Proof.
  intros Hacc. apply Forall_forall. intros q Hq.
  apply list_elem_of_In, in_flat_map in Hq as (p & Hp & Hq).
  apply list_elem_of_In in Hp, Hq.
  rewrite Forall_forall in Hacc. specialize (Hacc p Hp).
  apply seg_minus_within in Hq. unfold within in *. lia.
Qed.

Lemma minus_seg_covered s acc :
  Forall (fun p => within p s) acc -> minus_seg s acc = [].
Proof.
  induction 1 as [|p acc Hp _ IH]; [done|].
  change (minus_seg s (p :: acc)) with (seg_minus p s ++ minus_seg s acc).
  by rewrite (seg_minus_covered _ _ Hp), IH.
Qed.

Lemma difference_covered acc s b :
  Forall (fun p => within p s) acc -> s ∈ b -> difference acc b = [].
Proof.
  revert acc. induction b as [|t b IH]; intros acc Hacc Hs.
  - by apply elem_of_nil in Hs.
  - change (difference acc (t :: b)) with (difference (minus_seg t acc) b).
    apply elem_of_cons in Hs as [<-|Hs].
    + rewrite (minus_seg_covered _ _ Hacc). apply difference_nil_l.
    + apply IH; [by apply minus_seg_within | done].
Qed.

Lemma difference_subset a b : a ⊆ b -> difference a b = [].
Proof.
  induction a as [|s a IH]; intros Hsub; [apply difference_nil_l|].
  change (s :: a) with ([s] ++ a). rewrite difference_app.
  rewrite IH by set_solver.
  rewrite (difference_covered [s] s b); [done| |set_solver].
  apply Forall_singleton. unfold within. lia.
Qed.

Lemma seg_overlap_comm s t : seg_overlap s t = seg_overlap t s.
Proof.
  unfold seg_overlap.
  by rewrite (Z.max_comm (seg_lo s)), (Z.min_comm (seg_hi s)).
Qed.

Lemma intersect_cons s a t b :
  intersect (s :: a) (t :: b) =
  seg_overlap s t ++
  (if seg_hi s <? seg_hi t then intersect a (t :: b)
   else if seg_hi t <? seg_hi s then intersect (s :: a) b
   else intersect a b).
Proof. reflexivity. Qed.

Lemma intersect_nil_r a : intersect a [] = [].
Proof. by destruct a. Qed.

Lemma intersect_comm a b : intersect a b = intersect b a.
Proof.
  revert b. induction a as [|s a IHa]; intros b.
  - by rewrite intersect_nil_r.
  - induction b as [|t b IHb]; [done|].
    rewrite !intersect_cons, (seg_overlap_comm s t). f_equal.
    destruct (Z.ltb_spec (seg_hi s) (seg_hi t)),
             (Z.ltb_spec (seg_hi t) (seg_hi s)); try lia; auto.
Qed.

(** *** The modelled operations keep the invariant of segment lists *)

Lemma coalesced_cons s l :
  coalesced (s :: l) = true
  <-> seg_lo s < seg_hi s /\ above (seg_hi s) l /\ coalesced l = true.
Proof.
  simpl. rewrite !andb_true_iff, Z.ltb_lt.
  destruct l as [|t l]; simpl; rewrite ?Z.ltb_lt; tauto.
Qed.

(** In a coalesced list every segment starts after the end of the head. *)
Lemma coalesced_after s l q :
  coalesced (s :: l) = true -> q ∈ l -> seg_hi s < seg_lo q.
Proof.
  revert s. induction l as [|t l IH]; intros s Hs Hq.
  - by apply elem_of_nil in Hq.
  - apply coalesced_cons in Hs as (Hne & Habove & Hl). simpl in Habove.
    apply elem_of_cons in Hq as [->|Hq]; [done|].
    pose proof (IH t Hl Hq).
    apply coalesced_cons in Hl as (? & _ & _). lia.
Qed.

Lemma covers_elem l x :
  covers l x = true <-> exists q, q ∈ l /\ seg_lo q <= x < seg_hi q.
Proof.
  unfold covers. rewrite existsb_exists. split.
  - intros (q & Hq & Hx). exists q.
    by rewrite list_elem_of_In, <- seg_contains_spec.
  - intros (q & Hq & Hx). exists q.
    by rewrite <- list_elem_of_In, seg_contains_spec.
Qed.

Lemma coalesced_covers_after s l x :
  coalesced (s :: l) = true -> covers l x = true -> seg_hi s < x.
Proof.
  intros Hs (q & Hq & Hx)%covers_elem.
  pose proof (coalesced_after s l q Hs Hq). lia.
Qed.

Lemma covers_seg_overlap s t x :
  covers (seg_overlap s t) x = seg_contains s x && seg_contains t x.
Proof.
  unfold seg_overlap. apply eq_true_iff_eq.
  rewrite andb_true_iff, !seg_contains_spec.
  case_match eqn:Hlt; unfold covers; simpl.
  - rewrite orb_false_r, seg_contains_spec. simpl. lia.
  - apply Z.ltb_ge in Hlt. split; [done|lia].
Qed.

(** On coalesced lists the modelled intersection covers the times that
    both lists cover. *)
Lemma covers_intersect a b x :
  coalesced a = true -> coalesced b = true ->
  covers (intersect a b) x = covers a x && covers b x.
Proof.
  revert b. induction a as [|s a IHa]; intros b Ha Hb; [done|].
  induction b as [|t b IHb]; [by rewrite andb_false_r|].
  rewrite intersect_cons, covers_app, covers_seg_overlap.
  pose proof (coalesced_covers_after s a x Ha) as Fa.
  pose proof (coalesced_covers_after t b x Hb) as Fb.
  pose proof (proj1 (seg_contains_spec s x)) as Fs.
  pose proof (proj1 (seg_contains_spec t x)) as Ft.
  pose proof Ha as Ha'. apply coalesced_cons in Ha' as (_ & _ & Ha').
  pose proof Hb as Hb'. apply coalesced_cons in Hb' as (_ & _ & Hb').
  change (covers (s :: a) x) with (seg_contains s x || covers a x) in *.
  change (covers (t :: b) x) with (seg_contains t x || covers b x) in *.
  destruct (Z.ltb_spec (seg_hi s) (seg_hi t));
    [|destruct (Z.ltb_spec (seg_hi t) (seg_hi s))].
  - rewrite (IHa (t :: b) Ha' Hb).
    change (covers (t :: b) x) with (seg_contains t x || covers b x).
    destruct (seg_contains s x), (seg_contains t x), (covers a x),
      (covers b x); simpl; try done;
      specialize (Fs eq_refl); specialize (Fb eq_refl); lia.
  - rewrite (IHb Hb').
    destruct (seg_contains s x), (seg_contains t x), (covers a x),
      (covers b x); simpl; try done;
      specialize (Ft eq_refl); specialize (Fa eq_refl); lia.
  - rewrite (IHa b Ha' Hb').
    destruct (seg_contains s x) eqn:Es, (seg_contains t x) eqn:Et,
      (covers a x) eqn:Ea, (covers b x) eqn:Eb; simpl; try done;
      try (specialize (Fs eq_refl); specialize (Fb eq_refl); lia);
      specialize (Ft eq_refl); specialize (Fa eq_refl); lia.
Qed.

Lemma above_overlap_app m s t l :
  m < seg_lo s -> above m l -> above m (seg_overlap s t ++ l).
Proof.
  intros Hm Hl. unfold seg_overlap. case_match; [|done]. simpl. lia.
Qed.

Lemma intersect_above m a b :
  coalesced a = true -> above m a -> above m (intersect a b).
Proof.
  revert m b. induction a as [|s a IHa]; intros m b Ha Hm; [done|].
  induction b as [|t b IHb]; [done|].
  pose proof Ha as (Hne & Habove & Ha')%coalesced_cons.
  simpl in Hm. rewrite intersect_cons.
  assert (Hnext : above m a).
  { destruct a as [|s' a]; [done|]. simpl in *. lia. }
  apply above_overlap_app; [done|].
  repeat case_match; auto.
Qed.

(** The modelled intersection of coalesced lists is coalesced. *)
Lemma intersect_coalesced a b :
  coalesced a = true -> coalesced b = true ->
  coalesced (intersect a b) = true.
Proof.
  revert b. induction a as [|s a IHa]; intros b Ha Hb; [done|].
  induction b as [|t b IHb]; [done|].
  pose proof Ha as (Hs & Habove_a & Ha')%coalesced_cons.
  pose proof Hb as (Ht & Habove_b & Hb')%coalesced_cons.
  rewrite intersect_cons.
  assert (Hrest : forall rest,
             coalesced rest = true ->
             above (Z.min (seg_hi s) (seg_hi t)) rest ->
             coalesced (seg_overlap s t ++ rest) = true).
  { intros rest Hrest Habove. unfold seg_overlap.
    case_match eqn:Hlt; [|done].
    apply Z.ltb_lt in Hlt. simpl app. apply coalesced_cons. by simpl. }
  destruct (Z.ltb_spec (seg_hi s) (seg_hi t));
    [|destruct (Z.ltb_spec (seg_hi t) (seg_hi s))].
  - apply Hrest; [by apply IHa|].
    rewrite Z.min_l by lia. by apply intersect_above.
  - apply Hrest; [by apply IHb|].
    rewrite Z.min_r by lia. rewrite intersect_comm.
    by apply intersect_above.
  - apply Hrest; [by apply IHa|].
    rewrite Z.min_l by lia. by apply intersect_above.
Qed.

Lemma coalesced_app l1 l2 :
  coalesced l1 = true -> coalesced l2 = true ->
  (forall q1 q2, q1 ∈ l1 -> q2 ∈ l2 -> seg_hi q1 < seg_lo q2) ->
  coalesced (l1 ++ l2) = true.
Proof.
  induction l1 as [|s l1 IH]; intros H1 H2 Hcross; [done|].
  apply coalesced_cons in H1 as (Hs & Habove & H1).
  change ((s :: l1) ++ l2) with (s :: (l1 ++ l2)).
  apply coalesced_cons. split; [done|]. split.
  - destruct l1 as [|t l1]; [|done]. destruct l2 as [|t l2]; [done|].
    simpl. apply Hcross; set_solver.
  - apply IH; [done|done|]. intros q1 q2 Hq1 Hq2.
    apply Hcross; set_solver.
Qed.

Lemma seg_minus_coalesced s t :
  seg_lo t < seg_hi t -> coalesced (seg_minus s t) = true.
Proof.
  intros Ht. unfold seg_minus.
  destruct (Z.ltb_spec (seg_lo s) (Z.min (seg_hi s) (seg_lo t)));
    destruct (Z.ltb_spec (Z.max (seg_lo s) (seg_hi t)) (seg_hi s));
    simpl; rewrite ?andb_true_iff, ?Z.ltb_lt; simpl; lia.
Qed.

Lemma minus_seg_elem t a q :
  q ∈ minus_seg t a -> exists s, s ∈ a /\ within q s.
Proof.
  intros (s & Hs & Hq)%list_elem_of_In%in_flat_map.
  exists s. split; [by apply list_elem_of_In|].
  by apply (seg_minus_within s t), list_elem_of_In.
Qed.

Lemma minus_seg_coalesced t a :
  seg_lo t < seg_hi t -> coalesced a = true ->
  coalesced (minus_seg t a) = true.
Proof.
  intros Ht. induction a as [|s a IH]; intros Ha; [done|].
  pose proof Ha as (Hs & _ & Ha')%coalesced_cons.
  change (minus_seg t (s :: a)) with (seg_minus s t ++ minus_seg t a).
  apply coalesced_app; [by apply seg_minus_coalesced|by apply IH|].
  intros q1 q2 Hq1%seg_minus_within (s' & Hs' & Hq2)%minus_seg_elem.
  pose proof (coalesced_after s a s' Ha Hs').
  unfold within in *. lia.
Qed.

(** The modelled difference of coalesced lists is coalesced. *)
Lemma difference_coalesced a b :
  coalesced a = true -> coalesced b = true ->
  coalesced (difference a b) = true.
Proof.
  unfold difference. revert a.
  induction b as [|t b IH]; intros a Ha Hb; [done|].
  apply coalesced_cons in Hb as (Ht & _ & Hb). simpl.
  apply IH; [|done]. by apply minus_seg_coalesced.
Qed.

(** A new object never takes the place of one that is in the store. *)
Lemma alloc_frame (v : segmentlist) (st : store) (x : ref) :
  is_Some (st !! x) -> (alloc v st).2 !! x = st !! x.
Proof.
  intros Hx. unfold alloc. simpl.
  apply lookup_insert_ne. intros Heq.
  apply (is_fresh (dom st)). rewrite Heq. by apply elem_of_dom.
Qed.

Lemma alloc_lookup (v : segmentlist) (st : store) :
  (alloc v st).2 !! (alloc v st).1 = Some v.
Proof. unfold alloc. simpl. apply lookup_insert_eq. Qed.

(** C7: for all segment lists [A] and [B], [intersect A B] equals
    [intersect B A] and [difference A A] is the empty list; and the two
    operations are pure: applied to two objects [a] and [b] of the store
    that hold [A] and [B], each of them returns a new object holding the
    result and leaves [a] and [b] holding [A] and [B]. *)
Theorem segment_algebra_laws (A B : segmentlist) (st : store) (a b : ref) :
  st !! a = Some A ->
  st !! b = Some B ->
  intersect A B = intersect B A
  /\ difference A A = []
  /\ (exists r st', op_and a b st = Some (r, st')
        /\ st' !! r = Some (intersect A B)
        /\ st' !! a = Some A /\ st' !! b = Some B)
  /\ (exists r st', op_sub a b st = Some (r, st')
        /\ st' !! r = Some (difference A B)
        /\ st' !! a = Some A /\ st' !! b = Some B).
Proof.
  intros Ha Hb. split; [apply intersect_comm|].
  split; [by apply difference_subset|].
  unfold op_and, op_sub. rewrite Ha, Hb. split.
  - exists (alloc (intersect A B) st).1, (alloc (intersect A B) st).2.
    split; [by destruct (alloc _ _)|].
    split; [apply alloc_lookup|].
    split; (rewrite alloc_frame; [done | eauto]).
  - exists (alloc (difference A B) st).1, (alloc (difference A B) st).2.
    split; [by destruct (alloc _ _)|].
    split; [apply alloc_lookup|].
    split; (rewrite alloc_frame; [done | eauto]).
Qed.

Lemma segment_algebra_laws_witness :
  let A := [Seg 0 10; Seg 20 30] in
  let B := [Seg 5 25] in
  let st : store := {[ 0%nat := A; 1%nat := B ]} in
  intersect A B = intersect B A
  /\ difference A A = []
  /\ (exists r st', op_and 0%nat 1%nat st = Some (r, st')
        /\ st' !! r = Some (intersect A B)
        /\ st' !! 0%nat = Some A /\ st' !! 1%nat = Some B)
  /\ (exists r st', op_sub 0%nat 1%nat st = Some (r, st')
        /\ st' !! r = Some (difference A B)
        /\ st' !! 0%nat = Some A /\ st' !! 1%nat = Some B).
Proof.
  intros A B st.
  apply (segment_algebra_laws A B st 0%nat 1%nat); reflexivity.
Defined.

(** ** The coverage report *)

Lemma count_segs_app c l1 l2 :
  count_segs c (l1 ++ l2) = count_segs (count_segs c l1) l2.
Proof. unfold count_segs. apply fold_left_app. Qed.

(** What [segment_report] prints for an instrument: the counters run over
    the segments of all the instruments up to and including it. *)
Lemma report_loop_cumulative c (before after : SegmentDict) ifo segs :
  report_loop c (before ++ (ifo, segs) :: after) !! length before
  = Some (ifo, count_segs c (concat before.*2 ++ segs)).
Proof.
  revert c. induction before as [|[k l] before IH]; intros c; simpl.
  - done.
  - rewrite IH, <- app_assoc, (count_segs_app c l). reflexivity.
Qed.

Lemma segment_report_cumulative (before after : SegmentDict) ifo segs :
  segment_report (before ++ (ifo, segs) :: after) !! length before
  = Some (ifo, coverage (concat before.*2 ++ segs)).
Proof. apply report_loop_cumulative. Qed.

(** The line of the first instrument is its own coverage. *)
Lemma segment_report_first ifo segs (rest : SegmentDict) :
  segment_report ((ifo, segs) :: rest) !! 0%nat = Some (ifo, coverage segs).
Proof. reflexivity. Qed.

(** C1: in a dictionary with two instruments, H1 with the segment
    [[0,1000)] and L1 with the segment [[0,100)], the line printed for L1
    reports 1100 seconds in 2 segments, 1000 seconds in 1 segment longer
    than 500s: the coverage of H1 is counted in it.  The coverage of L1
    alone is 100 seconds in 1 segment and nothing longer than 500s. *)
Theorem segment_report_counts_other_instruments :
  segment_report [("H1", [Seg 0 1000]); ("L1", [Seg 0 100])]
  = [("H1", Counters 1000 1 1000 1 0 0); ("L1", Counters 1100 2 1000 1 0 0)]
  /\ per_instrument_report [("H1", [Seg 0 1000]); ("L1", [Seg 0 100])]
  = [("H1", Counters 1000 1 1000 1 0 0); ("L1", Counters 100 1 0 0 0 0)]
  /\ segment_report [("H1", [Seg 0 1000]); ("L1", [Seg 0 100])]
     <> per_instrument_report [("H1", [Seg 0 1000]); ("L1", [Seg 0 100])].
Proof. repeat split. discriminate. Qed.

(** C3: for instrument H with the segment list [[0,1000)] at site A and
    [[500,1000)] at site B, A minus B is [[0,500)] and B minus A is empty,
    both as lists and as the lines of the comparison; the report gives
    1000 seconds in 1 segment for A and 500 seconds in 1 segment for B. *)
Theorem multi_site_scenario :
  difference [Seg 0 1000] [Seg 500 1000] = [Seg 0 500]
  /\ difference [Seg 500 1000] [Seg 0 1000] = []
  /\ frames_present [("H", [Seg 0 1000])] [("H", [Seg 500 1000])] "B"
     = [Difference "H" [Seg 0 500]]
  /\ frames_present [("H", [Seg 500 1000])] [("H", [Seg 0 1000])] "A"
     = [Difference "H" []]
  /\ (exists c, segment_report [("H", [Seg 0 1000])] = [("H", c)]
        /\ fullLen c = 1000 /\ fullNum c = 1)
  /\ (exists c, segment_report [("H", [Seg 500 1000])] = [("H", c)]
        /\ fullLen c = 500 /\ fullNum c = 1).
Proof. repeat split; eexists; repeat split. Qed.

(** ** The comparison of two sites *)

Section Comparison.

Variable site_segments : string -> SegmentDict -> SegmentDict.

(** Deep copy and query of one site: the copy holds the segments of the
    site, and every object that was in the store is as it was. *)
Lemma copy_and_query site (r : dref) (st : dstore) (d : SegmentDict) :
  st !! r = Some d ->
  exists r' st',
    (deepcopy r st ≫= fun '(r1, st1) =>
       setup_datafind_workflow site_segments site r1 st1)
    = Some (r', st')
    /\ st' !! r' = Some (site_segments site d)
    /\ forall x, is_Some (st !! x) -> st' !! x = st !! x.
Proof.
  intros Hr. unfold deepcopy. rewrite Hr. simpl.
  unfold setup_datafind_workflow. rewrite lookup_insert_eq.
  eexists _, _. split; [done|]. split.
  - apply lookup_insert_eq.
  - intros x Hx. rewrite insert_insert_eq.
    apply lookup_insert_ne. intros Heq.
    apply (is_fresh (dom st)). rewrite Heq. by apply elem_of_dom.
Qed.

(** The output of the script for a pair of sites, from the baseline. *)
Lemma compare_sites_output site1 site2 (scienceSegs : dref) (st : dstore)
      (d : SegmentDict) :
  st !! scienceSegs = Some d ->
  exists st',
    compare_sites site_segments site1 site2 scienceSegs st
    = Some (Comparison
              (segment_report (site_segments site1 d))
              (segment_report (site_segments site2 d))
              (frames_present (site_segments site1 d)
                              (site_segments site2 d) site2)
              (frames_present (site_segments site2 d)
                              (site_segments site1 d) site1), st')
    /\ st' !! scienceSegs = Some d.
Proof.
  intros Hbase. unfold compare_sites.
  destruct (copy_and_query site1 _ _ _ Hbase) as (r1 & st1 & E1 & H1 & F1).
  assert (Hbase1 : st1 !! scienceSegs = Some d)
    by (rewrite F1; eauto).
  destruct (copy_and_query site2 _ _ _ Hbase1) as (r2 & st2 & E2 & H2 & F2).
  exists st2.
  destruct (deepcopy scienceSegs st) as [[ra sta]|] eqn:Ea; [|done].
  simpl in E1 |- *. rewrite E1. simpl. rewrite H1. simpl.
  destruct (deepcopy scienceSegs st1) as [[rb stb]|] eqn:Eb; [|done].
  simpl in E2 |- *. rewrite E2. simpl. rewrite H2. simpl.
  rewrite (F2 r1) by eauto. rewrite H1. simpl.
  split; [done|]. rewrite F2; eauto.
Qed.

End Comparison.

(** C4: for every baseline dictionary and every availability lookup, the
    script run for the sites in the order [site1], [site2] and in the order
    [site2], [site1] gives the same two reports and the same two blocks of
    differences (the second output is the first one with the roles of the
    sites exchanged), and the baseline is left as it was. *)
Theorem comparison_order_independent
        (site_segments : string -> SegmentDict -> SegmentDict)
        (site1 site2 : string) (scienceSegs : dref) (st : dstore)
        (d : SegmentDict) :
  st !! scienceSegs = Some d ->
  exists out st12 st21,
    compare_sites site_segments site1 site2 scienceSegs st = Some (out, st12)
    /\ compare_sites site_segments site2 site1 scienceSegs st
       = Some (exchange out, st21)
    /\ st12 !! scienceSegs = Some d
    /\ st21 !! scienceSegs = Some d.
Proof.
  intros Hbase.
  destruct (compare_sites_output site_segments site1 site2 _ _ _ Hbase)
    as (st12 & E12 & B12).
  destruct (compare_sites_output site_segments site2 site1 _ _ _ Hbase)
    as (st21 & E21 & B21).
  eexists _, st12, st21. split; [exact E12|]. split; [exact E21|]. done.
Qed.

(** ** The configuration parser *)

Lemma cp_get_entry (cp : ConfigParser) section key v :
  entry cp section key = Some v -> cp_get cp section key = ok v.
Proof.
  unfold entry, cp_get. destruct (cp !! section) as [sec|]; simpl; [|done].
  by intros ->.
Qed.

Lemma entry_insert_section (cp : ConfigParser) section sec key value s k :
  cp !! section = Some sec ->
  entry (<[section := <[key := value]> sec]> cp) s k
  = if decide ((s, k) = (section, key)) then Some value else entry cp s k.
Proof.
  intros Hsec. unfold entry.
  destruct (decide (s = section)) as [->|Hs].
  - rewrite lookup_insert_eq, Hsec. simpl.
    destruct (decide (k = key)) as [->|Hk].
    + rewrite lookup_insert_eq. by rewrite decide_True.
    + rewrite lookup_insert_ne by done. rewrite decide_False; congruence.
  - rewrite lookup_insert_ne by done. rewrite decide_False; congruence.
Qed.

(** C2, as the code has it: [set_grb_start_end(cp, start, end)] writes
    two entries of [cp], [workflow]/[start-time] and [workflow]/[end-time],
    which hold [str(start)] and [str(end)] after the call; every other
    section/key entry of [cp] holds the same value after the call as before
    it.  When [cp] has no [workflow] section the call raises
    [NoSectionError] and [cp] is as it was. *)
Theorem set_grb_start_end_frame (cp : ConfigParser) (start end_ : Z) :
  let cp' := (set_grb_start_end cp start end_).2 in
  (forall section key,
      (section, key) <> ("workflow", "start-time") ->
      (section, key) <> ("workflow", "end-time") ->
      entry cp' section key = entry cp section key)
  /\ (is_Some (cp !! "workflow") ->
      (set_grb_start_end cp start end_).1 = ok tt
      /\ entry cp' "workflow" "start-time" = Some (str start)
      /\ entry cp' "workflow" "end-time" = Some (str end_))
  /\ (cp !! "workflow" = None ->
      (set_grb_start_end cp start end_).1 = raise (NoSectionError "workflow")
      /\ cp' = cp).
Proof.
  unfold set_grb_start_end, cp_set.
  destruct (cp !! "workflow") as [sec|] eqn:Hsec; simpl.
  - rewrite lookup_insert_eq. simpl.
    split; [|split; [|done]].
    + intros section key H1 H2.
      rewrite (entry_insert_section _ _ (<["start-time" := str start]> sec))
        by apply lookup_insert_eq.
      rewrite decide_False by done.
      rewrite (entry_insert_section _ _ sec) by done.
      by rewrite decide_False.
    + intros _. split; [done|].
      rewrite !(entry_insert_section _ _ (<["start-time" := str start]> sec))
        by apply lookup_insert_eq.
      rewrite decide_False by done. rewrite decide_True by done.
      rewrite (entry_insert_section _ _ sec) by done.
      by rewrite decide_True.
  - split; [done|]. split; [by intros [? ?]|done].
Qed.

Lemma set_grb_start_end_frame_witness :
  let cp' := (set_grb_start_end Examples.grb_cp 1200 4800).2 in
  (forall section key,
      (section, key) <> ("workflow", "start-time") ->
      (section, key) <> ("workflow", "end-time") ->
      entry cp' section key = entry Examples.grb_cp section key)
  /\ (is_Some (Examples.grb_cp !! "workflow") ->
      (set_grb_start_end Examples.grb_cp 1200 4800).1 = ok tt
      /\ entry cp' "workflow" "start-time" = Some "1200"
      /\ entry cp' "workflow" "end-time" = Some "4800")
  /\ (Examples.grb_cp !! "workflow" = None ->
      (set_grb_start_end Examples.grb_cp 1200 4800).1
      = raise (NoSectionError "workflow")
      /\ cp' = Examples.grb_cp).
Proof. exact (set_grb_start_end_frame Examples.grb_cp 1200 4800). Defined.

(** C2, counterexample to a read-only configuration: the call replaces
    the start time that the configuration held. *)
Lemma set_grb_start_end_overwrites :
  entry Examples.grb_cp "workflow" "start-time" = Some "1000"
  /\ entry (set_grb_start_end Examples.grb_cp 1200 4800).2
           "workflow" "start-time" = Some "1200"
  /\ ~ (forall (cp : ConfigParser) start end_ section key,
          entry (set_grb_start_end cp start end_).2 section key
          = entry cp section key).
Proof.
  assert (H1 : entry Examples.grb_cp "workflow" "start-time" = Some "1000")
    by reflexivity.
  assert (H2 : entry (set_grb_start_end Examples.grb_cp 1200 4800).2
                     "workflow" "start-time" = Some "1200").
  { vm_compute. reflexivity. }
  split; [done|]. split; [done|].
  intros H. rewrite H, H1 in H2. discriminate.
Qed.

(** ** Physical file names *)

Lemma count_not_in {A} `{EqDecision A} (x : A) (l : list A) :
  x ∉ l -> length (filter (fun y => y = x) l) = 0%nat.
Proof.
  induction l as [|y l IH]; intros Hx; [done|].
  rewrite filter_cons. apply not_elem_of_cons in Hx as [Hne Hx].
  rewrite decide_False by congruence. auto.
Qed.

Lemma count_in_NoDup {A} `{EqDecision A} (x : A) (l : list A) :
  NoDup l -> x ∈ l -> length (filter (fun y => y = x) l) = 1%nat.
Proof.
  induction 1 as [|y l Hy Hl IH]; intros Hx; [by apply elem_of_nil in Hx|].
  rewrite filter_cons. destruct (decide (y = x)) as [->|Hne].
  - simpl. by rewrite count_not_in.
  - apply elem_of_cons in Hx as [->|Hx]; [done|]. auto.
Qed.

(** C5: for every File (its physical file names being an ordered set),
    the second of two calls of [add_pfn] with the same path and site
    changes nothing, and the list then holds exactly one entry for the
    pair. *)
Theorem add_pfn_idempotent (f : File) (path site : string) :
  NoDup (pfns f) ->
  add_pfn (add_pfn f path site) path site = add_pfn f path site
  /\ length (filter (fun p => p = (path, site))
                    (pfns (add_pfn (add_pfn f path site) path site)))
     = 1%nat.
Proof.
  intros Hnd.
  assert (Hin : (path, site) ∈ pfns (add_pfn f path site)).
  { unfold add_pfn. case_decide; [done|]. simpl. set_solver. }
  assert (Hidem : add_pfn (add_pfn f path site) path site
                  = add_pfn f path site).
  { unfold add_pfn at 1. by rewrite decide_True. }
  split; [done|]. rewrite Hidem.
  apply count_in_NoDup; [|done].
  unfold add_pfn. case_decide as Hmem; [done|]. simpl.
  apply NoDup_app. split; [done|]. split; [|apply NoDup_singleton].
  intros x Hx Hx'. apply list_elem_of_singleton in Hx' as ->. done.
Qed.

Lemma add_pfn_idempotent_witness :
  let f := Examples.frame "H1" "H-H1_FRAME-0-1.gwf" in
  add_pfn (add_pfn f "/frames/a.gwf" "local") "/frames/a.gwf" "local"
  = add_pfn f "/frames/a.gwf" "local"
  /\ length (filter (fun p => p = ("/frames/a.gwf", "local"))
       (pfns (add_pfn (add_pfn f "/frames/a.gwf" "local")
                      "/frames/a.gwf" "local")))
     = 1%nat.
Proof.
  intros f. apply (add_pfn_idempotent f "/frames/a.gwf" "local").
  simpl. apply NoDup_nil_2.
Defined.

Lemma comparison_order_independent_witness :
  let lookup := fun (site : string) (d : SegmentDict) =>
    if decide (site = "CIT") then [("H1", [Seg 500 1000])] else d in
  let st : dstore := {[ 0%nat := [("H1", [Seg 0 1000])] ]} in
  exists out st12 st21,
    compare_sites lookup "SYR" "CIT" 0%nat st = Some (out, st12)
    /\ compare_sites lookup "CIT" "SYR" 0%nat st = Some (exchange out, st21)
    /\ st12 !! 0%nat = Some [("H1", [Seg 0 1000])]
    /\ st21 !! 0%nat = Some [("H1", [Seg 0 1000])].
Proof.
  intros lookup st.
  apply (comparison_order_independent lookup "SYR" "CIT" 0%nat st).
  reflexivity.
Defined.

(** ** [grb_utils]: files, the trigger row and the gating nodes *)

Section GrbFacts.

Context {real : Type}.
Variable real_zero : real.
Variable py_float : string -> option real.
Variable py_int : string -> option Z.
Variable url_path : string -> string.
Variable path_join : string -> string -> string.
Variable file_url_of_path : string -> string.
Variable validcolumns : list (string * string).

Lemma cp_get_to_int (cp : ConfigParser) section key s z :
  entry cp section key = Some s -> py_int s = Some z ->
  rbind (cp_get cp section key) (to_int py_int) = ok z.
Proof.
  intros Hs Hz. rewrite (cp_get_entry _ _ _ _ Hs). simpl.
  unfold to_int. by rewrite Hz.
Qed.

Lemma cp_get_to_float (cp : ConfigParser) section key s r :
  entry cp section key = Some s -> py_float s = Some r ->
  rbind (cp_get cp section key) (to_float py_float) = ok r.
Proof.
  intros Hs Hr. rewrite (cp_get_entry _ _ _ _ Hs). simpl.
  unfold to_float. by rewrite Hr.
Qed.

(** C8, as the code has it: when [LAL_SRC] is unset the call raises the
    [ValueError] and the world is as it was (nothing copied, no File
    created); when [LAL_SRC] is set, the configuration holds integer
    [workflow]/[start-time] and [workflow]/[end-time] and both flags are
    false, the call returns the empty list, again with the world as it
    was. *)
Theorem get_coh_PTF_files_guard (cp : ConfigParser) (ifos run_dir : string)
        (w : World real) :
  (forall bank_veto summary_files,
      environ w !! "LAL_SRC" = None ->
      get_coh_PTF_files py_int url_path cp ifos run_dir
                        bank_veto summary_files w
      = (raise (ValueError
           "The environment variable LAL_SRC must be set to a location containing the file lalsuite.git"),
         w))
  /\ (forall lalDir s e start end_,
        environ w !! "LAL_SRC" = Some lalDir ->
        entry cp "workflow" "start-time" = Some s ->
        py_int s = Some start ->
        entry cp "workflow" "end-time" = Some e ->
        py_int e = Some end_ ->
        get_coh_PTF_files py_int url_path cp ifos run_dir false false w
        = (ok [], w)).
Proof.
  split.
  - intros bv sf Henv.
    unfold get_coh_PTF_files, wbind, getenv. rewrite Henv. reflexivity.
  - intros lalDir s e start end_ Henv Hs Hstart He Hend.
    unfold get_coh_PTF_files, wbind, getenv, lift. rewrite Henv.
    rewrite (cp_get_to_int _ _ _ _ _ Hs Hstart).
    rewrite (cp_get_to_int _ _ _ _ _ He Hend).
    reflexivity.
Qed.

End GrbFacts.

Lemma get_coh_PTF_files_guard_witness :
  get_coh_PTF_files Examples.decimal Examples.path_of_url Examples.grb_cp
     "H1L1" "/run" true true (MkWorld (real := Z) ∅ ∅ [])
   = (raise (ValueError
        "The environment variable LAL_SRC must be set to a location containing the file lalsuite.git"),
      MkWorld ∅ ∅ [])
  /\ get_coh_PTF_files Examples.decimal Examples.path_of_url Examples.grb_cp
       "H1L1" "/run" false false Examples.world
     = (ok [], Examples.world).
Proof.
  split.
  - apply (get_coh_PTF_files_guard Examples.decimal Examples.path_of_url
             Examples.grb_cp "H1L1" "/run" (MkWorld ∅ ∅ [])).
    reflexivity.
  - apply (proj2 (get_coh_PTF_files_guard Examples.decimal
                    Examples.path_of_url Examples.grb_cp "H1L1" "/run"
                    Examples.world) "/opt/lalsuite" "1000" "5000" 1000 5000);
      reflexivity.
Defined.

(** C8, counterexample to the empty list for every configuration: with
    [LAL_SRC] set and both flags false, a configuration that has no
    [start-time] in its [workflow] section makes the call raise
    [NoOptionError]; it does not return the empty list. *)
Lemma get_coh_PTF_files_reads_times_first :
  environ Examples.world !! "LAL_SRC" = Some "/opt/lalsuite"
  /\ get_coh_PTF_files Examples.decimal Examples.path_of_url
       Examples.cp_without_times "H1L1" "/run" false false Examples.world
     = (raise (NoOptionError "start-time" "workflow"), Examples.world)
  /\ (get_coh_PTF_files Examples.decimal Examples.path_of_url
       Examples.cp_without_times "H1L1" "/run" false false
       Examples.world).1 <> ok [].
Proof. split; [reflexivity|]. split; [reflexivity|discriminate]. Qed.

Section TriggerRow.

Context {real : Type}.
Variable real_zero : real.

Lemma in_list_pair (x a b : string) :
  in_list x [a; b] = bool_decide (x = a \/ x = b).
Proof.
  unfold in_list. apply bool_decide_ext.
  rewrite !elem_of_cons, elem_of_nil. tauto.
Qed.

(** One turn of the loop on a column that is not set yet: the chain of
    tests of the code is the default of the column. *)
Lemma fill_empty_step (c k : string) rest (row : Row real) :
  row !! c = None ->
  fill_empty real_zero ((c, k) :: rest) row
  = match kind_default real_zero c k with
    | Some v => fill_empty real_zero rest (<[c := v]> row)
    | None => raise (ValueError ("Column " +:+ c +:+ " not recognized"))
    end.
Proof.
  intros Hc. simpl. unfold hasattr.
  rewrite bool_decide_eq_false_2 by (rewrite Hc; by intros [? ?]).
  unfold kind_default. rewrite !in_list_pair.
  repeat case_bool_decide; try done; try (exfalso; tauto); by subst c.
Qed.

Lemma fill_empty_skip (c k : string) rest (row : Row real) :
  is_Some (row !! c) ->
  fill_empty real_zero ((c, k) :: rest) row = fill_empty real_zero rest row.
Proof.
  intros Hc. simpl. unfold hasattr. by rewrite bool_decide_eq_true_2.
Qed.

Lemma can_fill_insert (row : Row real) c v col :
  can_fill real_zero row col -> can_fill real_zero (<[c := v]> row) col.
Proof.
  intros [H|H]; [left|by right].
  destruct (decide (c = col.1)) as [->|Hne].
  - rewrite lookup_insert_eq. eauto.
  - by rewrite lookup_insert_ne.
Qed.

(** When every column can be filled the loop ends with a row that keeps
    what was set and holds the default of every other column. *)
Lemma fill_empty_ok cols (row : Row real) :
  NoDup cols.*1 ->
  Forall (can_fill real_zero row) cols ->
  exists row',
    fill_empty real_zero cols row = ok row'
    /\ (forall c, is_Some (row !! c) -> row' !! c = row !! c)
    /\ (forall c k, (c, k) ∈ cols -> row !! c = None ->
                    row' !! c = kind_default real_zero c k).
Proof.
  revert row. induction cols as [|[c k] cols IH]; intros row Hnd Hall.
  - exists row. split; [done|]. split; [done|].
    intros c k Hin. by apply elem_of_nil in Hin.
  - apply NoDup_cons in Hnd as [Hc Hnd].
    apply Forall_cons in Hall as [Hck Hall].
    destruct (row !! c) as [v0|] eqn:Hrow.
    + rewrite fill_empty_skip by (rewrite Hrow; eauto).
      destruct (IH row Hnd Hall) as (row' & E & Hkeep & Hdef).
      exists row'. split; [done|]. split; [done|].
      intros c' k' Hin Hnone.
      apply elem_of_cons in Hin as [Heq|Hin]; [|eauto].
      injection Heq as -> ->. congruence.
    + rewrite fill_empty_step by done.
      destruct Hck as [[? Hck]|[v Hv]]; simpl in *; [congruence|].
      rewrite Hv.
      destruct (IH (<[c := v]> row) Hnd) as (row' & E & Hkeep & Hdef).
      { eapply Forall_impl; [exact Hall|]. intros col.
        apply can_fill_insert. }
      exists row'. split; [done|]. split.
      * intros c' Hc'.
        assert (c <> c') by (intros ->; rewrite Hrow in Hc';
                             by destruct Hc').
        rewrite Hkeep; rewrite lookup_insert_ne by done; done.
      * intros c' k' Hin Hnone.
        apply elem_of_cons in Hin as [Heq|Hin].
        -- injection Heq as -> ->.
           rewrite Hkeep; rewrite lookup_insert_eq; eauto.
        -- assert (c <> c').
           { intros ->. apply Hc. apply list_elem_of_fmap.
             by exists (c', k'). }
           apply Hdef; [done|]. by rewrite lookup_insert_ne.
Qed.

(** The loop stops at the first column that is neither set nor has a
    default, with the error that names it. *)
Lemma fill_empty_raise before c k after (row : Row real) :
  NoDup (before ++ (c, k) :: after).*1 ->
  Forall (can_fill real_zero row) before ->
  row !! c = None ->
  kind_default real_zero c k = None ->
  fill_empty real_zero (before ++ (c, k) :: after) row
  = raise (ValueError ("Column " +:+ c +:+ " not recognized")).
Proof.
  revert row. induction before as [|[c1 k1] before IH];
    intros row Hnd Hall Hc Hk.
  - simpl app. rewrite fill_empty_step by done. by rewrite Hk.
  - change (((c1, k1) :: before) ++ (c, k) :: after)
      with ((c1, k1) :: (before ++ (c, k) :: after)) in *.
    rewrite fmap_cons in Hnd. apply NoDup_cons in Hnd as [Hc1 Hnd].
    apply Forall_cons in Hall as [Hck Hall].
    destruct (row !! c1) as [v0|] eqn:Hrow.
    + rewrite fill_empty_skip by (rewrite Hrow; eauto). by apply IH.
    + rewrite fill_empty_step by done.
      destruct Hck as [[? Hck]|[v Hv]]; simpl in *; [congruence|].
      rewrite Hv. apply IH; [done| | |done].
      * eapply Forall_impl; [exact Hall|]. intros col.
        apply can_fill_insert.
      * rewrite lookup_insert_ne; [done|]. intros ->. apply Hc1.
        rewrite fmap_app, fmap_cons. set_solver.
Qed.

End TriggerRow.

Section TriggerFile.

Context {real : Type}.
Variable real_zero : real.
Variable py_float : string -> option real.
Variable py_int : string -> option Z.
Variable path_join : string -> string -> string.
Variable file_url_of_path : string -> string.
Variable validcolumns : list (string * string).

(** The row after the four [setattr] of the known attributes. *)
Lemma known_attributes_ok (cp : ConfigParser) sra sdec stime name ra dec t :
  entry cp "workflow" "ra" = Some sra -> py_float sra = Some ra ->
  entry cp "workflow" "dec" = Some sdec -> py_float sdec = Some dec ->
  entry cp "workflow" "trigger-time" = Some stime ->
  py_int stime = Some t ->
  entry cp "workflow" "trigger-name" = Some name ->
  known_attributes py_float py_int cp
  = ok (<["event_number_grb" := VStr name]>
          (<["start_time" := VInt t]>
             (<["event_dec" := VReal dec]>
                (<["event_ra" := VReal ra]> ∅)))).
Proof.
  intros Hra Hra' Hdec Hdec' Ht Ht' Hname. unfold known_attributes.
  rewrite (cp_get_to_float _ _ _ _ _ _ Hra Hra'). simpl.
  rewrite (cp_get_to_float _ _ _ _ _ _ Hdec Hdec'). simpl.
  rewrite (cp_get_to_int _ _ _ _ _ _ Ht Ht'). simpl.
  by rewrite (cp_get_entry _ _ _ _ Hname).
Qed.

Lemma known_row_dom (v1 v2 v3 v4 : Value real) (c : string) :
  is_Some ((<["event_number_grb" := v4]>
              (<["start_time" := v3]>
                 (<["event_dec" := v2]>
                    (<["event_ra" := v1]> (∅ : Row real))))) !! c)
  <-> c ∈ known_columns.
Proof.
  unfold known_columns.
  rewrite !lookup_insert_is_Some, lookup_empty, !elem_of_cons, elem_of_nil.
  split.
  - intros [?|[_ [?|[_ [?|[_ [?|[_ H]]]]]]]]; auto.
    by destruct H.
  - intros [->|[->|[->|[->|[]]]]].
    + right. split; [done|]. right. split; [done|].
      right. split; [done|]. by left.
    + right. split; [done|]. right. split; [done|]. by left.
    + right. split; [done|]. by left.
    + by left.
Qed.

Lemma known_columns_elem :
  "event_ra" ∈ known_columns /\ "event_dec" ∈ known_columns
  /\ "start_time" ∈ known_columns /\ "event_number_grb" ∈ known_columns.
Proof. unfold known_columns. set_solver. Qed.

(** C6: with the four known attributes present in the configuration,
    [make_exttrig_file] sets [event_ra], [event_dec], [start_time] and
    [event_number_grb] from the configuration and gives every other
    valid column the default of its kind, so that no column of the row
    that is written is unset; and at a column that is not recognized it
    raises the [ValueError] that names the column, before anything is
    written. *)
Theorem make_exttrig_file_fills_every_column
        (cp : ConfigParser) (ifos : string) (sci_seg : segment)
        (out_dir : string) (w : World real)
        sra sdec stime name ra dec t :
  NoDup validcolumns.*1 ->
  entry cp "workflow" "ra" = Some sra -> py_float sra = Some ra ->
  entry cp "workflow" "dec" = Some sdec -> py_float sdec = Some dec ->
  entry cp "workflow" "trigger-time" = Some stime ->
  py_int stime = Some t ->
  entry cp "workflow" "trigger-name" = Some name ->
  let run :=
    make_exttrig_file real_zero py_float py_int path_join file_url_of_path
                      validcolumns cp ifos sci_seg out_dir in
  let xml_file_name := "triggerGRB" +:+ name +:+ ".xml" in
  let xml_file_path := path_join out_dir xml_file_name in
  (Forall (fillable real_zero) validcolumns ->
   exists row,
     exttrig_row real_zero py_float py_int validcolumns cp = ok row
     /\ row !! "event_ra" = Some (VReal ra)
     /\ row !! "event_dec" = Some (VReal dec)
     /\ row !! "start_time" = Some (VInt t)
     /\ row !! "event_number_grb" = Some (VStr name)
     /\ (forall c k, (c, k) ∈ validcolumns -> c ∉ known_columns ->
                     row !! c = kind_default real_zero c k)
     /\ (forall c k, (c, k) ∈ validcolumns -> is_Some (row !! c))
     /\ (xml_file_path ∉ denied w ->
         exists f,
           run w = (ok f, log (FileCreated xml_file_name)
                              (log (XmlWritten xml_file_path row) w))))
  /\ (forall before c k after,
        validcolumns = before ++ (c, k) :: after ->
        Forall (fillable real_zero) before ->
        c ∉ known_columns ->
        kind_default real_zero c k = None ->
        run w = (raise (ValueError ("Column " +:+ c +:+ " not recognized")),
                 w)).
Proof.
  intros Hnd Hra Hra' Hdec Hdec' Ht Ht' Hname run xml_file_name
         xml_file_path.
  pose proof (known_attributes_ok cp _ _ _ _ _ _ _
                Hra Hra' Hdec Hdec' Ht Ht' Hname) as Hknown.
  set (row0 := <["event_number_grb" := VStr name]> _) in Hknown.
  assert (Hdom : forall c, is_Some (row0 !! c) <-> c ∈ known_columns)
    by (intros c; apply known_row_dom).
  assert (Hcan : forall cols, Forall (fillable real_zero) cols ->
                              Forall (can_fill real_zero row0) cols).
  { intros cols Hcols. eapply Forall_impl; [exact Hcols|].
    intros col [Hk|Hd]; [left|by right]. by apply Hdom. }
  split.
  - intros Hall.
    destruct (fill_empty_ok real_zero validcolumns row0 Hnd (Hcan _ Hall))
      as (row & Erow & Hkeep & Hdef).
    assert (Hrow : exttrig_row real_zero py_float py_int validcolumns cp
                   = ok row).
    { unfold exttrig_row. by rewrite Hknown. }
    assert (Hnone : forall c, c ∉ known_columns -> row0 !! c = None).
    { intros c Hc. apply eq_None_not_Some. by rewrite Hdom. }
    exists row. split; [done|].
    repeat split.
    + rewrite Hkeep; [done|]. apply Hdom, known_columns_elem.
    + rewrite Hkeep; [done|]. apply Hdom, known_columns_elem.
    + rewrite Hkeep; [done|]. apply Hdom, known_columns_elem.
    + rewrite Hkeep; [done|]. apply Hdom, known_columns_elem.
    + intros c k Hin Hc. apply Hdef; auto.
    + intros c k Hin.
      destruct (decide (c ∈ known_columns)) as [Hc|Hc].
      * rewrite Hkeep; by apply Hdom.
      * rewrite (Hdef c k Hin (Hnone c Hc)).
        rewrite Forall_forall in Hall.
        destruct (Hall _ Hin) as [?|?]; done.
    + intros Hpath. eexists.
      unfold run, make_exttrig_file, wbind, lift. rewrite Hrow.
      rewrite (cp_get_entry _ _ _ _ Hname).
      unfold write_filename, ok. cbv beta iota.
      fold xml_file_name. fold xml_file_path.
      rewrite decide_False by done. reflexivity.
  - intros before c k after Hcols Hall Hc Hk.
    unfold run, make_exttrig_file, wbind, lift, exttrig_row.
    rewrite Hknown. simpl. rewrite Hcols.
    rewrite (fill_empty_raise real_zero before c k after row0);
      [done| by rewrite <- Hcols | by apply Hcan | | done].
    apply eq_None_not_Some. by rewrite Hdom.
Qed.

End TriggerFile.

Lemma make_exttrig_file_fills_every_column_witness :
  (exists row,
      exttrig_row 0 Examples.decimal Examples.decimal Examples.columns
                  Examples.grb_cp = ok row
      /\ row !! "event_ra" = Some (VReal 12)
      /\ row !! "process_id" = Some (VInt 0)
      /\ forall c k, (c, k) ∈ Examples.columns -> is_Some (row !! c))
  /\ make_exttrig_file 0 Examples.decimal Examples.decimal Examples.join
       Examples.url_of_path
       (Examples.columns ++ [("10th_column", "blob")])
       Examples.grb_cp "H1L1" (Seg 1000 5000) "/run" Examples.world
     = (raise (ValueError "Column 10th_column not recognized"),
        Examples.world).
Proof.
  assert (Hfill : Forall (fillable 0) Examples.columns)
    by (apply (bool_decide_unpack _); vm_compute; exact I).
  split.
  - destruct (make_exttrig_file_fills_every_column 0 Examples.decimal
                Examples.decimal Examples.join Examples.url_of_path
                Examples.columns Examples.grb_cp "H1L1" (Seg 1000 5000)
                "/run" Examples.world "12" "-7" "3000" "100101A" 12 (-7) 3000)
      as [Hrow _]; try reflexivity.
    { apply (bool_decide_unpack _). vm_compute. exact I. }
    destruct (Hrow Hfill) as (row & Erow & Hra & _ & _ & _ & Hdef & Hall & _).
    exists row. split; [exact Erow|]. split; [exact Hra|].
    split; [|exact Hall].
    rewrite (Hdef "process_id" "ilwd:char"); [reflexivity| |];
      apply (bool_decide_unpack _); vm_compute; exact I.
  - apply (proj2 (make_exttrig_file_fills_every_column 0 Examples.decimal
                Examples.decimal Examples.join Examples.url_of_path
                (Examples.columns ++ [("10th_column", "blob")])
                Examples.grb_cp "H1L1" (Seg 1000 5000)
                "/run" Examples.world "12" "-7" "3000" "100101A" 12 (-7) 3000
                ltac:(apply (bool_decide_unpack _); vm_compute; exact I)
                eq_refl eq_refl eq_refl eq_refl eq_refl eq_refl eq_refl)
             Examples.columns "10th_column" "blob" []);
      [reflexivity | exact Hfill | | reflexivity].
    apply (bool_decide_unpack _). vm_compute. exact I.
Defined.

Section Gating.

Context {ExeClass Job Node : Type}.
Variable resolve_url_to_file : string -> FileAttrs -> result File.
Variable select_generic_executable : Workflow -> string -> result ExeClass.
Variable new_job :
  ExeClass -> ConfigParser -> string -> string -> option string ->
  list string -> result Job.
Variable create_node :
  Job -> FileList -> list string -> result (Node * File).

(** C9: [get_ipn_sky_files] and [make_gating_node] called with
    [tags=None] return what they return with [tags=[]], all other
    arguments being the same. *)
Theorem tags_none_is_empty (workflow : Workflow) (url : string)
        (datafind_files : FileList) (outdir : option string) :
  get_ipn_sky_files resolve_url_to_file workflow url None
  = get_ipn_sky_files resolve_url_to_file workflow url (Some [])
  /\ make_gating_node select_generic_executable new_job create_node
       workflow datafind_files outdir None
     = make_gating_node select_generic_executable new_job create_node
         workflow datafind_files outdir (Some []).
Proof. split; reflexivity. Qed.

(** The loop of [make_gating_node] returns exactly when the calls for
    every instrument return, and then it has appended the node and the
    output of each instrument, in order. *)
Lemma gating_loop_spec cls cp datafind_files outdir tags ifos
      (nodes nodes' : list Node) (outs outs' : FileList) :
  gating_loop new_job create_node cls cp datafind_files outdir tags
              ifos nodes outs = ok (nodes', outs')
  <-> exists rs : list (Node * File),
      Forall2 (gating_call new_job create_node cls cp datafind_files
                           outdir tags) ifos rs
      /\ nodes' = nodes ++ rs.*1 /\ outs' = outs ++ rs.*2.
Proof.
  revert nodes outs. induction ifos as [|ifo ifos IH]; intros nodes outs.
  - simpl. split.
    + intros [= <- <-]. exists []. by rewrite !app_nil_r.
    + intros (rs & Hrs & -> & ->). apply Forall2_nil_inv_l in Hrs as ->.
      by rewrite !app_nil_r.
  - simpl. split.
    + destruct (new_job cls cp _ ifo outdir tags) as [e|job] eqn:Hjob;
        [done|]. simpl.
      destruct (create_node job _ tags) as [e|[node out]] eqn:Hnode;
        [done|]. simpl.
      intros (rs & Hrs & -> & ->)%IH.
      exists ((node, out) :: rs). split.
      * constructor; [|done]. exists job. by split.
      * rewrite !fmap_cons, <- !app_assoc. done.
    + intros (rs & Hrs & -> & ->).
      apply Forall2_cons_inv_l in Hrs
        as ([node out] & rs' & (job & Hjob & Hnode) & Hrs & ->).
      rewrite Hjob. simpl. rewrite Hnode. simpl.
      apply IH. exists rs'. split; [done|].
      rewrite !fmap_cons, <- !app_assoc. done.
Qed.

(** C10: [make_gating_node] returns the lists [nodes] and [outs] exactly
    when the executable class is found and, for every instrument of
    [workflow.ifos] in order, the job of the instrument gives a node and
    an output on the datafind files whose [ifo] is that instrument (in
    their original order); [nodes] and [outs] are these nodes and
    outputs in the order of [workflow.ifos], so both have as many
    entries as there are instruments. *)
Theorem make_gating_node_per_ifo (workflow : Workflow)
        (datafind_files : FileList) (outdir : option string)
        (tags : option (list string)) (nodes : list Node)
        (outs : FileList) :
  (make_gating_node select_generic_executable new_job create_node
     workflow datafind_files outdir tags = ok (nodes, outs)
   <-> exists cls (rs : list (Node * File)),
       select_generic_executable workflow "condition_strain" = ok cls
       /\ Forall2 (fun ifo r =>
                     exists job,
                       new_job cls (wf_cp workflow) "condition_strain" ifo
                               outdir (default [] tags) = ok job
                       /\ create_node job
                            (filter (fun f => file_ifo f = ifo)
                                    datafind_files)
                            (default [] tags) = ok r)
                  (wf_ifos workflow) rs
       /\ nodes = rs.*1 /\ outs = rs.*2)
  /\ (make_gating_node select_generic_executable new_job create_node
        workflow datafind_files outdir tags = ok (nodes, outs) ->
      length nodes = length (wf_ifos workflow)
      /\ length outs = length (wf_ifos workflow)).
Proof.
  assert (Hiff :
    make_gating_node select_generic_executable new_job create_node
      workflow datafind_files outdir tags = ok (nodes, outs)
    <-> exists cls (rs : list (Node * File)),
        select_generic_executable workflow "condition_strain" = ok cls
        /\ Forall2 (gating_call new_job create_node cls (wf_cp workflow)
                      datafind_files outdir (default [] tags))
                   (wf_ifos workflow) rs
        /\ nodes = rs.*1 /\ outs = rs.*2).
  { unfold make_gating_node.
    change (match tags with Some t => t | None => [] end)
      with (default [] tags).
    destruct (select_generic_executable workflow "condition_strain")
      as [e|cls]; simpl.
    - split; [done|]. by intros (? & ? & ? & _).
    - rewrite gating_loop_spec. split.
      + intros (rs & Hrs & -> & ->). by exists cls, rs.
      + intros (cls' & rs & [= <-] & Hrs & -> & ->). by exists rs. }
  split; [exact Hiff|].
  intros (cls & rs & _ & Hrs & -> & ->)%Hiff.
  apply Forall2_length in Hrs. by rewrite !length_fmap.
Qed.

End Gating.

Lemma make_gating_node_per_ifo_witness :
  let files := [ Examples.frame "H1" "H-1.gwf"; Examples.frame "L1" "L-1.gwf";
                 Examples.frame "H1" "H-2.gwf" ] in
  let nodes := [("H1", ["H-1.gwf"; "H-2.gwf"]); ("L1", ["L-1.gwf"])] in
  let outs := [ new_File "H1" "GATED" (Seg 0 1) "gated-H1";
                new_File "L1" "GATED" (Seg 0 1) "gated-L1" ] in
  make_gating_node (fun _ _ => ok tt) Examples.job_of Examples.node_of
    Examples.two_ifo_workflow files None None = ok (nodes, outs)
  /\ length nodes = 2%nat /\ length outs = 2%nat.
Proof.
  intros files nodes outs.
  assert (Hrun : make_gating_node (fun _ _ => ok tt) Examples.job_of
                   Examples.node_of Examples.two_ifo_workflow files None None
                 = ok (nodes, outs)) by reflexivity.
  split; [exact Hrun|].
  exact (proj2 (make_gating_node_per_ifo (fun _ _ => ok tt) Examples.job_of
                  Examples.node_of Examples.two_ifo_workflow files None None
                  nodes outs) Hrun).
Defined.

(* ===================================================================== *)
(** * Further properties of the code *)
(* ===================================================================== *)

Import DailyScript GrbEffects.

(** ** The coverage report *)

Lemma counters_add_assoc a b c :
  counters_add (counters_add a b) c = counters_add a (counters_add b c).
Proof. unfold counters_add. simpl. f_equal; lia. Qed.

Lemma count_seg_add c seg :
  count_seg c seg = counters_add c (count_seg counters0 seg).
Proof.
  unfold count_seg, counters_add.
  destruct (500 <? seg_abs seg), (2000 <? seg_abs seg); simpl;
    f_equal; lia.
Qed.

(** Counting from the counters [c] adds the coverage of the segments to
    [c]. *)
Lemma count_segs_add c segs :
  count_segs c segs = counters_add c (coverage segs).
Proof.
  unfold coverage, count_segs. revert c.
  induction segs as [|seg segs IH]; intros c; simpl.
  - unfold counters_add. destruct c. simpl. f_equal; lia.
  - rewrite IH, (IH (count_seg counters0 seg)), count_seg_add.
    apply counters_add_assoc.
Qed.

(** X1: the counters printed for an instrument are those printed for the
    instrument before it plus the coverage of its own segments, so that the
    figures of one instrument are the difference of two consecutive
    lines. *)
Theorem segment_report_consecutive_lines
        (before after : SegmentDict) ifo1 segs1 ifo2 segs2 :
  exists c1 c2,
    segment_report (before ++ (ifo1, segs1) :: (ifo2, segs2) :: after)
      !! length before = Some (ifo1, c1)
    /\ segment_report (before ++ (ifo1, segs1) :: (ifo2, segs2) :: after)
      !! S (length before) = Some (ifo2, c2)
    /\ c2 = counters_add c1 (coverage segs2).
Proof.
  eexists _, _. split; [apply segment_report_cumulative|].
  pose proof (segment_report_cumulative (before ++ [(ifo1, segs1)]) after
                ifo2 segs2) as H.
  rewrite <- app_assoc, length_app, Nat.add_1_r in H. simpl in H.
  split; [exact H|].
  rewrite fmap_app, concat_app. simpl. rewrite app_nil_r.
  unfold coverage at 1. rewrite count_segs_app. apply count_segs_add.
Qed.

Lemma count_seg_inv c seg : counters_inv c -> counters_inv (count_seg c seg).
Proof.
  unfold counters_inv, count_seg.
  destruct (Z.ltb_spec 500 (seg_abs seg)), (Z.ltb_spec 2000 (seg_abs seg));
    simpl; lia.
Qed.

Lemma count_segs_inv c segs :
  counters_inv c -> counters_inv (count_segs c segs).
Proof.
  unfold count_segs. revert c.
  induction segs as [|seg segs IH]; intros c Hc; simpl; [done|].
  by apply IH, count_seg_inv.
Qed.

Lemma report_loop_inv c (sSegs : SegmentDict) :
  counters_inv c ->
  Forall (fun line => counters_inv line.2) (report_loop c sSegs).
Proof.
  revert c. induction sSegs as [|[ifo segs] rest IH]; intros c Hc; simpl.
  - constructor.
  - constructor; [by apply count_segs_inv|]. by apply IH, count_segs_inv.
Qed.

(** X2: in every line of the report, whatever the segments are, the
    segments longer than 2000s are among those longer than 500s and these
    among all segments, the seconds in segments longer than 2000s are at
    most those in segments longer than 500s, and the seconds reported
    exceed 500 (2000) times the number of segments over the threshold. *)
Theorem segment_report_figures_consistent (sSegs : SegmentDict) :
  Forall (fun line => counters_inv line.2) (segment_report sSegs).
Proof.
  apply report_loop_inv. unfold counters_inv, counters0. simpl. lia.
Qed.

Lemma count_seg_ordered c seg :
  ordered seg -> 0 <= shortLen c <= fullLen c ->
  0 <= shortLen (count_seg c seg) <= fullLen (count_seg c seg).
Proof.
  unfold ordered, count_seg, seg_abs.
  destruct (Z.ltb_spec 500 (seg_hi seg - seg_lo seg)),
           (Z.ltb_spec 2000 (seg_hi seg - seg_lo seg));
    simpl; lia.
Qed.

Lemma count_segs_ordered c segs :
  Forall ordered segs -> 0 <= shortLen c <= fullLen c ->
  0 <= shortLen (count_segs c segs) <= fullLen (count_segs c segs).
Proof.
  unfold count_segs. intros Hall. revert c.
  induction Hall as [|seg segs Hseg _ IH]; intros c Hc; simpl; [done|].
  by apply IH, count_seg_ordered.
Qed.

Lemma report_loop_ordered c (sSegs : SegmentDict) :
  Forall (fun entry => Forall ordered entry.2) sSegs ->
  0 <= shortLen c <= fullLen c ->
  Forall (fun line => 0 <= shortLen line.2 <= fullLen line.2)
         (report_loop c sSegs).
Proof.
  intros Hall. revert c.
  induction Hall as [|[ifo segs] rest Hsegs _ IH]; intros c Hc; simpl.
  - constructor.
  - constructor; [by apply count_segs_ordered|].
    by apply IH, count_segs_ordered.
Qed.

(** X3: when the bounds of every segment are in order, the seconds in
    segments longer than 500s never exceed the total seconds of a line. *)
Theorem segment_report_short_within_full (sSegs : SegmentDict) :
  Forall (fun entry => Forall ordered entry.2) sSegs ->
  Forall (fun line => 0 <= shortLen line.2 <= fullLen line.2)
         (segment_report sSegs).
Proof. intros Hall. apply report_loop_ordered; [done|]. simpl. lia. Qed.

Lemma segment_report_short_within_full_witness :
  Forall (fun line => 0 <= shortLen line.2 <= fullLen line.2)
         (segment_report [("H1", [Seg 0 1000; Seg 1200 1300]);
                          ("L1", [Seg 0 100])]).
Proof.
  apply segment_report_short_within_full.
  repeat constructor; unfold ordered; simpl; lia.
Defined.

(** X4: the report has one line per instrument, labelled in the order of
    the dictionary, and its last line holds the coverage of all the
    segments of the dictionary taken together. *)
Theorem segment_report_last_line_totals (before : SegmentDict) ifo segs :
  (segment_report (before ++ [(ifo, segs)])).*1
  = (before ++ [(ifo, segs)]).*1
  /\ last (segment_report (before ++ [(ifo, segs)]))
     = Some (ifo, coverage (concat (before ++ [(ifo, segs)]).*2)).
Proof.
  assert (Hlabels : forall c (d : SegmentDict), (report_loop c d).*1 = d.*1).
  { intros c d. revert c. induction d as [|[k l] d IH]; intros c; simpl;
      [done|]. by rewrite IH. }
  split; [apply Hlabels|].
  rewrite last_lookup.
  assert (Hlen : length (segment_report (before ++ [(ifo, segs)]))
                 = S (length before)).
  { unfold segment_report.
    rewrite <- (length_fmap fst (report_loop _ _)), Hlabels.
    rewrite length_fmap, length_app. simpl. lia. }
  rewrite Hlen. simpl.
  rewrite segment_report_cumulative.
  by rewrite fmap_app, concat_app; simpl; rewrite app_nil_r.
Qed.

(** ** The blocks of differences and the whole script *)

Lemma getitem_None (d : SegmentDict) ifo :
  getitem d ifo = None <-> ifo ∉ d.*1.
Proof.
  induction d as [|[k v] d IH]; simpl.
  - split; [intros _; apply not_elem_of_nil|done].
  - rewrite not_elem_of_cons. case_decide as Hk.
    + split; [done|]. by intros [? _].
    + rewrite IH. split; [done|]. by intros [_ ?].
Qed.

(** X5: a block of differences has one line per instrument of the first
    site, in its order; the line is the notice that there are no science
    segments exactly when the second site does not have the instrument,
    so that an instrument the second site alone has is not mentioned. *)
Theorem frames_present_lines (segs1 segs2 : SegmentDict) (site2 : string) :
  length (frames_present segs1 segs2 site2) = length segs1
  /\ forall i ifo l1,
      segs1 !! i = Some (ifo, l1) ->
      (ifo ∉ segs2.*1 ->
       frames_present segs1 segs2 site2 !! i
       = Some (NoScienceSegments ifo site2))
      /\ (ifo ∈ segs2.*1 ->
          exists l2, getitem segs2 ifo = Some l2
                     /\ frames_present segs1 segs2 site2 !! i
                        = Some (Difference ifo (difference l1 l2))).
Proof.
  unfold frames_present. split; [apply length_map|].
  intros i ifo l1 Hi.
  rewrite !list_lookup_fmap. unfold SegmentDict in *. rewrite Hi.
  simpl. split.
  - intros Hnot%getitem_None. by rewrite Hnot.
  - intros Hin. destruct (getitem segs2 ifo) as [l2|] eqn:Hget.
    + by exists l2.
    + apply getitem_None in Hget. done.
Qed.

Section WholeScript.

Variable site_segments : string -> SegmentDict -> SegmentDict.

Lemma query_site_spec site (scienceSegs : dref) (st : dstore)
      (d : SegmentDict) :
  st !! scienceSegs = Some d ->
  exists r st',
    query_site site_segments site scienceSegs st = Some (r, st')
    /\ st' !! r = Some (site_segments site d)
    /\ forall x, is_Some (st !! x) -> st' !! x = st !! x.
Proof. apply copy_and_query. Qed.

Lemma next_site_spec site (scienceSegs scienceSegsC : dref) (st : dstore)
      (d dC : SegmentDict) :
  st !! scienceSegs = Some d ->
  st !! scienceSegsC = Some dC ->
  exists st',
    next_site site_segments site scienceSegs scienceSegsC st
    = Some (site_output site (site_segments site d) dC, st')
    /\ st' !! scienceSegs = Some d
    /\ st' !! scienceSegsC = Some dC.
Proof.
  intros Hd HC. unfold next_site.
  destruct (query_site_spec site _ _ _ Hd) as (r & st' & -> & Hr & Hframe).
  exists st'. simpl. rewrite Hr. simpl.
  unfold print_frames. rewrite Hr. simpl.
  rewrite (Hframe scienceSegsC), HC by eauto. simpl.
  split; [done|]. rewrite (Hframe scienceSegs) by eauto. done.
Qed.

(** X6: run from a store in which [scienceSegs] holds the science
    segments [d], the script prints the report of [d], then for SYR and
    CIT the reports and the two blocks, then for each of LHO, LLO and UWM
    the report and its two blocks against CIT; every site is looked up from
    [d] itself and the later comparisons use the segments that CIT gave at
    the start, and [scienceSegs] still holds [d] at the end. *)
Theorem daily_test_output (scienceSegs : dref) (st : dstore)
        (d : SegmentDict) :
  st !! scienceSegs = Some d ->
  let at_site := fun site => site_segments site d in
  exists st',
    daily_test site_segments scienceSegs st
    = Some ([Report (segment_report d)]
            ++ [Report (segment_report (at_site "SYR"));
                Report (segment_report (at_site "CIT"));
                FramesPresent "SYR" "CIT"
                  (frames_present (at_site "SYR") (at_site "CIT") "CIT");
                FramesPresent "CIT" "SYR"
                  (frames_present (at_site "CIT") (at_site "SYR") "SYR")]
            ++ site_output "LHO" (at_site "LHO") (at_site "CIT")
            ++ site_output "LLO" (at_site "LLO") (at_site "CIT")
            ++ site_output "UWM" (at_site "UWM") (at_site "CIT"), st')
    /\ st' !! scienceSegs = Some d.
Proof.
  intros Hd at_site. unfold daily_test. rewrite Hd. simpl.
  destruct (query_site_spec "SYR" _ _ _ Hd) as (rS & st1 & -> & HS & F1).
  simpl. rewrite HS. simpl.
  assert (Hd1 : st1 !! scienceSegs = Some d) by (rewrite F1; eauto).
  destruct (query_site_spec "CIT" _ _ _ Hd1) as (rC & st2 & -> & HC & F2).
  simpl. rewrite HC. simpl.
  assert (Hd2 : st2 !! scienceSegs = Some d) by (rewrite F2; eauto).
  unfold print_frames.
  rewrite (F2 rS), HS, HC by eauto. simpl.
  destruct (next_site_spec "LHO" _ _ _ _ _ Hd2 HC) as (st3 & -> & Hd3 & HC3).
  simpl.
  destruct (next_site_spec "LLO" _ _ _ _ _ Hd3 HC3) as (st4 & -> & Hd4 & HC4).
  simpl.
  destruct (next_site_spec "UWM" _ _ _ _ _ Hd4 HC4) as (st5 & -> & Hd5 & HC5).
  simpl. exists st5. done.
Qed.

End WholeScript.

Lemma daily_test_output_witness :
  let lookup := fun (site : string) (d : SegmentDict) =>
    if decide (site = "CIT") then [("H1", [Seg 500 1000])] else d in
  let d := [("H1", [Seg 0 1000])] in
  let st : dstore := {[ 0%nat := d ]} in
  let at_site := fun site => lookup site d in
  exists st',
    daily_test lookup 0%nat st
    = Some ([Report (segment_report d)]
            ++ [Report (segment_report (at_site "SYR"));
                Report (segment_report (at_site "CIT"));
                FramesPresent "SYR" "CIT"
                  (frames_present (at_site "SYR") (at_site "CIT") "CIT");
                FramesPresent "CIT" "SYR"
                  (frames_present (at_site "CIT") (at_site "SYR") "SYR")]
            ++ site_output "LHO" (at_site "LHO") (at_site "CIT")
            ++ site_output "LLO" (at_site "LLO") (at_site "CIT")
            ++ site_output "UWM" (at_site "UWM") (at_site "CIT"), st')
    /\ st' !! 0%nat = Some d.
Proof.
  intros lookup d st.
  apply (daily_test_output lookup 0%nat st d). reflexivity.
Defined.

(** ** The analysis boundaries *)

Lemma set_grb_start_end_section (cp : ConfigParser) sec (start end_ : Z) :
  cp !! "workflow" = Some sec ->
  set_grb_start_end cp start end_
  = (ok tt,
     <["workflow" := <["end-time" := str end_]>
                       (<["start-time" := str start]> sec)]> cp).
Proof.
  intros Hsec. unfold set_grb_start_end, cp_set. rewrite Hsec.
  rewrite lookup_insert_eq, insert_insert_eq. reflexivity.
Qed.

Lemma set_grb_start_end_no_section (cp : ConfigParser) (start end_ : Z) :
  cp !! "workflow" = None ->
  set_grb_start_end cp start end_ = (raise (NoSectionError "workflow"), cp).
Proof. intros Hsec. unfold set_grb_start_end, cp_set. by rewrite Hsec. Qed.

(** X13: of two calls of [set_grb_start_end] one after the other only the
    second counts: outcome and configuration are those of the second call
    alone (so a repeated call changes nothing more); and a call neither
    adds nor removes a section. *)
Theorem set_grb_start_end_last_call_wins
        (cp : ConfigParser) (start1 end1 start2 end2 : Z) :
  set_grb_start_end (set_grb_start_end cp start1 end1).2 start2 end2
  = set_grb_start_end cp start2 end2
  /\ dom (set_grb_start_end cp start1 end1).2 = dom cp.
Proof.
  destruct (cp !! "workflow") as [sec|] eqn:Hsec.
  - rewrite (set_grb_start_end_section cp sec) by done. simpl.
    rewrite (set_grb_start_end_section _ _ start2 end2
               (lookup_insert_eq cp _ _)).
    rewrite (set_grb_start_end_section cp sec) by done.
    split.
    + rewrite insert_insert_eq. do 2 f_equal.
      apply map_eq. intros key. rewrite !lookup_insert.
      by repeat case_decide.
    + rewrite dom_insert_L.
      apply subseteq_union_1_L, singleton_subseteq_l, elem_of_dom. eauto.
  - rewrite (set_grb_start_end_no_section cp start1 end1) by done. simpl.
    done.
Qed.

(** ** The effects of [get_coh_PTF_files] and [make_exttrig_file] *)

Section Effects.

Context {real : Type}.
Variable real_zero : real.
Variable py_float : string -> option real.
Variable py_int : string -> option Z.
Variable url_path : string -> string.
Variable path_join : string -> string -> string.
Variable file_url_of_path : string -> string.
Variable validcolumns : list (string * string).









Lemma log_log (e1 e2 : event real) (w : World real) :
  log e2 (log e1 w) = MkWorld (environ w) (denied w) (trace w ++ [e1; e2]).
Proof. unfold log. simpl. by rewrite <- app_assoc. Qed.

Lemma retrieve_ok lalDir run_dir ifos base description sci_seg file_list
      (w : World real) :
  aux_source lalDir base ∉ denied w ->
  run_dir ∉ denied w ->
  retrieve url_path lalDir run_dir ifos base description sci_seg file_list w
  = (ok (file_list
         ++ [aux_File url_path ifos run_dir sci_seg (base, description)]),
     MkWorld (environ w) (denied w)
             (trace w ++ aux_events lalDir run_dir (base, description))).
Proof.
  intros Hsrc Hdst. unfold retrieve, wbind, shutil_copy.
  fold (aux_source lalDir base).
  rewrite (decide_False (P := aux_source lalDir base ∈ denied w)) by done.
  rewrite (decide_False (P := run_dir ∈ denied w)) by done.
  unfold create_File, wret, ok. cbv beta iota.
  rewrite log_log. reflexivity.
Qed.

Lemma retrieve_denied lalDir run_dir ifos base description sci_seg
      file_list (w : World real) :
  aux_source lalDir base ∈ denied w ->
  retrieve url_path lalDir run_dir ifos base description sci_seg file_list w
  = (raise (IOError (aux_source lalDir base)), w).
Proof.
  intros Hsrc. unfold retrieve, wbind, shutil_copy.
  fold (aux_source lalDir base).
  by rewrite (decide_True (P := aux_source lalDir base ∈ denied w)).
Qed.

(** The retrievals of [get_coh_PTF_files] run one after the other, none of
    them refused. *)
Ltac retrievals Hfile Hdir :=
  unfold wbind, wret, ok; cbv beta iota;
  repeat (rewrite retrieve_ok;
          [ unfold ok; cbv beta iota; cbn [environ denied trace fst snd]
          | cbn [environ denied trace];
            eapply Hfile; cbn [app]; repeat constructor
          | exact Hdir ]);
  cbn [fmap list_fmap concat app];
  rewrite <- ?app_assoc; rewrite ?app_nil_r.

(** X8: with [LAL_SRC] set, integer analysis times in the configuration
    and no path refused, [get_coh_PTF_files] returns the bank veto file if
    [bank_veto] is set, followed by the summary script and stylesheet if
    [summary_files] is set; each File carries the instruments, the segment
    of the two times, its "file://localhost" URL in the run directory and
    one physical name at site "local"; and each was copied from
    [$LAL_SRC/lalapps/src/ring/coh_PTF_config_files/] into the run
    directory, in that order. *)
Theorem get_coh_PTF_files_retrieves
        (cp : ConfigParser) (ifos run_dir : string)
        (bank_veto summary_files : bool) (w : World real)
        lalDir s e start end_ :
  environ w !! "LAL_SRC" = Some lalDir ->
  entry cp "workflow" "start-time" = Some s -> py_int s = Some start ->
  entry cp "workflow" "end-time" = Some e -> py_int e = Some end_ ->
  run_dir ∉ denied w ->
  (forall file, file ∈ aux_files bank_veto summary_files ->
                aux_source lalDir file.1 ∉ denied w) ->
  get_coh_PTF_files py_int url_path cp ifos run_dir bank_veto summary_files w
  = (ok (aux_File url_path ifos run_dir (mk_segment start end_)
           <$> aux_files bank_veto summary_files),
     MkWorld (environ w) (denied w)
       (trace w ++ concat (aux_events lalDir run_dir
                             <$> aux_files bank_veto summary_files))).
Proof.
  intros Henv Hs Hstart He Hend Hdir Hsrc.
  assert (Hfile : forall base description,
             (base, description) ∈ aux_files bank_veto summary_files ->
             aux_source lalDir base ∉ denied w)
    by (intros base description Hin; exact (Hsrc _ Hin)).
  unfold get_coh_PTF_files, wbind at 1, getenv. rewrite Henv.
  unfold wbind at 1, lift. rewrite (cp_get_to_int _ _ _ _ _ _ Hs Hstart).
  unfold wbind at 1. rewrite (cp_get_to_int _ _ _ _ _ _ He Hend).
  unfold aux_files in *.
  destruct bank_veto, summary_files; retrievals Hfile Hdir;
    by destruct w.
Qed.

(** X9: with [LAL_SRC] set, [get_coh_PTF_files] reads the two analysis
    times before it looks at its flags: a configuration without the
    [workflow] section, without [start-time] or [end-time], or with a time
    that is not an integer makes the call raise, whatever the flags, and
    nothing has been copied or created by then. *)
Theorem get_coh_PTF_files_checks_times_first
        (cp : ConfigParser) (ifos run_dir : string)
        (bank_veto summary_files : bool) (w : World real) lalDir :
  environ w !! "LAL_SRC" = Some lalDir ->
  let run := get_coh_PTF_files py_int url_path cp ifos run_dir
                               bank_veto summary_files w in
  (cp !! "workflow" = None -> run = (raise (NoSectionError "workflow"), w))
  /\ (forall sec, cp !! "workflow" = Some sec ->
        sec !! "start-time" = None ->
        run = (raise (NoOptionError "start-time" "workflow"), w))
  /\ (forall s, entry cp "workflow" "start-time" = Some s ->
        py_int s = None -> exists msg, run = (raise (ValueError msg), w))
  /\ (forall sec s start, cp !! "workflow" = Some sec ->
        sec !! "start-time" = Some s -> py_int s = Some start ->
        sec !! "end-time" = None ->
        run = (raise (NoOptionError "end-time" "workflow"), w))
  /\ (forall s start e, entry cp "workflow" "start-time" = Some s ->
        py_int s = Some start ->
        entry cp "workflow" "end-time" = Some e -> py_int e = None ->
        exists msg, run = (raise (ValueError msg), w)).
Proof.
  intros Henv run. subst run.
  assert (Hrun : forall err,
    rbind (cp_get cp "workflow" "start-time") (to_int py_int) = inl err
    \/ (exists start,
          rbind (cp_get cp "workflow" "start-time") (to_int py_int)
          = inr start
          /\ rbind (cp_get cp "workflow" "end-time") (to_int py_int)
             = inl err) ->
    get_coh_PTF_files py_int url_path cp ifos run_dir bank_veto
                      summary_files w = (inl err, w)).
  { intros err Herr.
    unfold get_coh_PTF_files, wbind at 1, getenv. rewrite Henv.
    unfold ok. cbv beta iota. unfold wbind at 1, lift.
    destruct Herr as [->|(start & -> & Hend)]; [done|].
    unfold wbind at 1. by rewrite Hend. }
  repeat split.
  - intros Hsec. apply Hrun. left. unfold cp_get. by rewrite Hsec.
  - intros sec Hsec Hopt. apply Hrun. left. unfold cp_get.
    by rewrite Hsec, Hopt.
  - intros s Hs Hint. eexists. apply Hrun. left.
    rewrite (cp_get_entry _ _ _ _ Hs). simpl.
    unfold to_int. by rewrite Hint.
  - intros sec s start Hsec Hs Hint Hopt. apply Hrun. right.
    exists start. split.
    + apply (cp_get_to_int _ _ _ _ s); [|done].
      unfold entry. by rewrite Hsec.
    + unfold cp_get. by rewrite Hsec, Hopt.
  - intros s start e Hs Hint He Hbad. eexists. apply Hrun. right.
    exists start. split; [by apply (cp_get_to_int _ _ _ _ s)|].
    rewrite (cp_get_entry _ _ _ _ He). simpl.
    unfold to_int. by rewrite Hbad.
Qed.

(** X10: a copy that the system refuses stops [get_coh_PTF_files] with the
    error of the copy, and what was retrieved before stays: when the
    summary script cannot be read, the call with both flags set raises
    [IOError] on it after the bank veto file has been copied and its File
    created; no list is returned. *)
Theorem get_coh_PTF_files_stops_at_refused_copy
        (cp : ConfigParser) (ifos run_dir : string) (w : World real)
        lalDir s e start end_ :
  environ w !! "LAL_SRC" = Some lalDir ->
  entry cp "workflow" "start-time" = Some s -> py_int s = Some start ->
  entry cp "workflow" "end-time" = Some e -> py_int e = Some end_ ->
  run_dir ∉ denied w ->
  aux_source lalDir "bank_veto_bank.xml" ∉ denied w ->
  aux_source lalDir "coh_PTF_html_summary.js" ∈ denied w ->
  get_coh_PTF_files py_int url_path cp ifos run_dir true true w
  = (raise (IOError (aux_source lalDir "coh_PTF_html_summary.js")),
     MkWorld (environ w) (denied w)
       (trace w ++ [Copied (aux_source lalDir "bank_veto_bank.xml") run_dir;
                    FileCreated "bank_veto_bank"])).
Proof.
  intros Henv Hs Hstart He Hend Hdir Hbank Hjs.
  unfold get_coh_PTF_files, wbind at 1, getenv. rewrite Henv.
  unfold wbind at 1, lift. rewrite (cp_get_to_int _ _ _ _ _ _ Hs Hstart).
  unfold wbind at 1. rewrite (cp_get_to_int _ _ _ _ _ _ He Hend).
  unfold wbind, ok. cbv beta iota.
  rewrite retrieve_ok by done. unfold ok. cbv beta iota.
  rewrite retrieve_denied by done. reflexivity.
Qed.

(** X14: the boundaries that [set_grb_start_end] writes are those that
    [get_coh_PTF_files] reads back, [int] undoing [str]: called on the
    updated configuration it gives every File it returns the segment of
    [start] and [end]. *)
Theorem get_coh_PTF_files_after_set_grb_start_end
        (cp : ConfigParser) (start end_ : Z) (ifos run_dir : string)
        (bank_veto summary_files : bool) (w : World real) lalDir :
  is_Some (cp !! "workflow") ->
  (forall z, py_int (str z) = Some z) ->
  environ w !! "LAL_SRC" = Some lalDir ->
  run_dir ∉ denied w ->
  (forall file, file ∈ aux_files bank_veto summary_files ->
                aux_source lalDir file.1 ∉ denied w) ->
  exists files w',
    get_coh_PTF_files py_int url_path (set_grb_start_end cp start end_).2
                      ifos run_dir bank_veto summary_files w
    = (ok files, w')
    /\ length files = length (aux_files bank_veto summary_files)
    /\ Forall (fun f => file_segment f = mk_segment start end_) files.
Proof.
  intros [sec Hsec] Hint Henv Hdir Hsrc.
  rewrite (set_grb_start_end_section cp sec) by done. simpl.
  exists (aux_File url_path ifos run_dir (mk_segment start end_)
            <$> aux_files bank_veto summary_files),
         (MkWorld (environ w) (denied w)
            (trace w ++ concat (aux_events lalDir run_dir
                                  <$> aux_files bank_veto summary_files))).
  split.
  - assert (Hfile : forall base description,
               (base, description) ∈ aux_files bank_veto summary_files ->
               aux_source lalDir base ∉ denied w)
      by (intros base description Hin; exact (Hsrc _ Hin)).
    unfold get_coh_PTF_files, wbind at 1, getenv. rewrite Henv.
    unfold wbind at 1, lift.
    rewrite (cp_get_to_int _ _ _ _ (str start) start);
      [|unfold entry; rewrite lookup_insert_eq; simpl;
        rewrite lookup_insert_ne by done; apply lookup_insert_eq
       |apply Hint].
    unfold wbind at 1.
    rewrite (cp_get_to_int _ _ _ _ (str end_) end_);
      [|unfold entry; rewrite lookup_insert_eq; simpl;
        apply lookup_insert_eq
       |apply Hint].
    unfold aux_files in *.
    destruct bank_veto, summary_files; retrievals Hfile Hdir;
      by destruct w.
  - split; [by rewrite length_fmap|].
    apply Forall_fmap, Forall_forall. by intros [base description] _.
Qed.

End Effects.

Section TriggerEffects.

Context {real : Type}.
Variable real_zero : real.
Variable py_float : string -> option real.
Variable py_int : string -> option Z.
Variable path_join : string -> string -> string.
Variable file_url_of_path : string -> string.
Variable validcolumns : list (string * string).

Lemma cp_get_ok (cp : ConfigParser) section key v :
  cp_get cp section key = ok v -> entry cp section key = Some v.
Proof.
  unfold cp_get, entry. destruct (cp !! section) as [sec|]; [|done].
  simpl. destruct (sec !! key); [|done]. by intros [= ->].
Qed.

Lemma cp_get_section (cp : ConfigParser) section sec key :
  cp !! section = Some sec ->
  cp_get cp section key
  = match sec !! key with
    | Some v => ok v
    | None => raise (NoOptionError key section)
    end.
Proof. intros Hsec. unfold cp_get. by rewrite Hsec. Qed.

(** X11: [make_exttrig_file] is all or nothing.  When it raises, the world
    is as it was: no document has been written and no File created.  When
    it returns, the row has been built, exactly one document holding it has
    been written at [out_dir]/triggerGRB<name>.xml, and the File returned
    has that name, the URL of that path, the given instruments and segment
    and one physical name, the URL itself at site "local". *)
Theorem make_exttrig_file_all_or_nothing
        (cp : ConfigParser) (ifos : string) (sci_seg : segment)
        (out_dir : string) (w : World real) :
  match make_exttrig_file real_zero py_float py_int path_join
                          file_url_of_path validcolumns cp ifos sci_seg
                          out_dir w with
  | (inl _, w') => w' = w
  | (inr f, w') =>
      exists row name,
        exttrig_row real_zero py_float py_int validcolumns cp = ok row
        /\ entry cp "workflow" "trigger-name" = Some name
        /\ environ w' = environ w /\ denied w' = denied w
        /\ trace w'
           = trace w
             ++ [XmlWritten
                   (path_join out_dir ("triggerGRB" +:+ name +:+ ".xml")) row;
                 FileCreated ("triggerGRB" +:+ name +:+ ".xml")]
        /\ f = MkFile ifos ("triggerGRB" +:+ name +:+ ".xml") sci_seg
                 (file_url_of_path
                    (path_join out_dir ("triggerGRB" +:+ name +:+ ".xml")))
                 []
                 [(file_url_of_path
                     (path_join out_dir ("triggerGRB" +:+ name +:+ ".xml")),
                   "local")]
  end.
Proof.
  unfold make_exttrig_file, wbind at 1, lift.
  destruct (exttrig_row real_zero py_float py_int validcolumns cp)
    as [err|row] eqn:Hrow; [done|].
  unfold wbind at 1.
  destruct (cp_get cp "workflow" "trigger-name") as [err|name] eqn:Hname;
    [done|].
  unfold wbind at 1, write_filename.
  case_decide as Hpath; [done|].
  unfold wbind, create_File, wret, ok. cbv beta iota.
  exists row, name. split; [done|]. split; [by apply cp_get_ok|].
  split; [done|]. split; [done|].
  split; [simpl; by rewrite <- app_assoc|]. reflexivity.
Qed.

(** X12: a configuration without what the trigger needs makes
    [make_exttrig_file] raise and leaves the world as it was:
    [NoSectionError] without the [workflow] section, and [NoOptionError]
    for the first of [ra], [dec], [trigger-time] and [trigger-name] that
    is missing, those before it being present and convertible. *)
Theorem make_exttrig_file_missing_option
        (cp : ConfigParser) (ifos : string) (sci_seg : segment)
        (out_dir : string) (w : World real) :
  let run :=
    make_exttrig_file real_zero py_float py_int path_join file_url_of_path
                      validcolumns cp ifos sci_seg out_dir w in
  (cp !! "workflow" = None -> run = (raise (NoSectionError "workflow"), w))
  /\ forall sec,
      cp !! "workflow" = Some sec ->
      (sec !! "ra" = None -> run = (raise (NoOptionError "ra" "workflow"), w))
      /\ (forall sra ra,
            sec !! "ra" = Some sra -> py_float sra = Some ra ->
            (sec !! "dec" = None ->
             run = (raise (NoOptionError "dec" "workflow"), w))
            /\ forall sdec dec,
                sec !! "dec" = Some sdec -> py_float sdec = Some dec ->
                (sec !! "trigger-time" = None ->
                 run = (raise (NoOptionError "trigger-time" "workflow"), w))
                /\ forall stime t,
                    sec !! "trigger-time" = Some stime ->
                    py_int stime = Some t ->
                    sec !! "trigger-name" = None ->
                    run = (raise (NoOptionError "trigger-name" "workflow"),
                           w)).
Proof.
  intros run. subst run.
  assert (Hrun : forall err,
    known_attributes py_float py_int cp = inl err ->
    make_exttrig_file real_zero py_float py_int path_join file_url_of_path
                      validcolumns cp ifos sci_seg out_dir w = (inl err, w)).
  { intros err Herr.
    unfold make_exttrig_file, wbind at 1, lift, exttrig_row.
    by rewrite Herr. }
  split.
  - intros Hsec. apply Hrun. unfold known_attributes, cp_get.
    by rewrite Hsec.
  - intros sec Hsec.
    assert (Hknown :
      known_attributes py_float py_int cp
      = (do ra <- rbind (match sec !! "ra" with
                         | Some v => ok v
                         | None => raise (NoOptionError "ra" "workflow")
                         end) (to_float py_float);
         do dec <- rbind (match sec !! "dec" with
                          | Some v => ok v
                          | None => raise (NoOptionError "dec" "workflow")
                          end) (to_float py_float);
         do t <- rbind (match sec !! "trigger-time" with
                        | Some v => ok v
                        | None =>
                            raise (NoOptionError "trigger-time" "workflow")
                        end) (to_int py_int);
         do name <- match sec !! "trigger-name" with
                    | Some v => ok v
                    | None => raise (NoOptionError "trigger-name" "workflow")
                    end;
         ok (<["event_number_grb" := VStr name]>
               (<["start_time" := VInt t]>
                  (<["event_dec" := VReal dec]>
                     (<["event_ra" := VReal ra]> ∅)))))).
    { unfold known_attributes.
      by rewrite !(cp_get_section cp "workflow" sec) by done. }
    split.
    { intros Hra. apply Hrun. rewrite Hknown, Hra. reflexivity. }
    intros sra ra Hsra Hra. split.
    { intros Hdec. apply Hrun. rewrite Hknown, Hsra, Hdec. simpl.
      unfold to_float. rewrite Hra. reflexivity. }
    intros sdec dec Hsdec Hdec. split.
    { intros Htime. apply Hrun. rewrite Hknown, Hsra, Hsdec, Htime. simpl.
      unfold to_float. rewrite Hra, Hdec. reflexivity. }
    intros stime t Hstime Ht Hname. apply Hrun.
    rewrite Hknown, Hsra, Hsdec, Hstime, Hname. simpl.
    unfold to_float, to_int. rewrite Hra, Hdec, Ht. reflexivity.
Qed.

End TriggerEffects.


(** ** The loop that fills the empty columns *)

Section FillLoop.

Context {real : Type}.
Variable real_zero : real.

Lemma fill_empty_dom cols (row row' : Row real) :
  fill_empty real_zero cols row = ok row' ->
  dom row' = dom row ∪ list_to_set cols.*1.
Proof.
  revert row. induction cols as [|[c k] cols IH]; intros row Hfill.
  - injection Hfill as <-. simpl. by rewrite union_empty_r_L.
  - destruct (row !! c) as [v0|] eqn:Hrow.
    + rewrite fill_empty_skip in Hfill by (rewrite Hrow; eauto).
      rewrite (IH row Hfill), fmap_cons, list_to_set_cons. simpl.
      assert (c ∈ dom row) by (apply elem_of_dom; eauto).
      rewrite (union_assoc_L (dom row)), (union_comm_L (dom row) {[c]}).
      by rewrite (subseteq_union_1_L {[c]} (dom row))
        by (by apply singleton_subseteq_l).
    + rewrite fill_empty_step in Hfill by done.
      destruct (kind_default real_zero c k) as [v|]; [|done].
      rewrite (IH _ Hfill), dom_insert_L, fmap_cons, list_to_set_cons. simpl.
      by rewrite (union_comm_L {[c]} (dom row)), (union_assoc_L (dom row)).
Qed.

(** X15: when the loop over the columns ends, the row holds everything it
    held before, with the same values; the attributes it has are those it
    had and the columns of the table; and the loop run once more on the
    result changes nothing. *)
Theorem fill_empty_only_adds cols (row row' : Row real) :
  fill_empty real_zero cols row = ok row' ->
  row ⊆ row'
  /\ dom row' = dom row ∪ list_to_set cols.*1
  /\ fill_empty real_zero cols row' = ok row'.
Proof.
  intros Hfill.
  assert (Hboth : row ⊆ row' /\ fill_empty real_zero cols row' = ok row').
  { revert row Hfill. induction cols as [|[c k] cols IH]; intros row Hfill.
    - by injection Hfill as <-.
    - destruct (row !! c) as [v0|] eqn:Hrow.
      + rewrite fill_empty_skip in Hfill by (rewrite Hrow; eauto).
        destruct (IH row Hfill) as (Hsub & Hagain). split; [done|].
        rewrite fill_empty_skip; [done|].
        exists v0. by apply (lookup_weaken row).
      + rewrite fill_empty_step in Hfill by done.
        destruct (kind_default real_zero c k) as [v|]; [|done].
        destruct (IH _ Hfill) as (Hsub & Hagain). split.
        * etrans; [|exact Hsub]. by apply insert_subseteq.
        * rewrite fill_empty_skip; [done|].
          exists v. apply (lookup_weaken (<[c := v]> row)); [|done].
          apply lookup_insert_eq. }
  destruct Hboth as [Hsub Hagain].
  split; [done|]. split; [by apply fill_empty_dom|done].
Qed.

Lemma fill_empty_can_fill cols (row row' : Row real) :
  NoDup cols.*1 ->
  fill_empty real_zero cols row = ok row' ->
  Forall (can_fill real_zero row) cols.
Proof.
  revert row. induction cols as [|[c k] cols IH]; intros row Hnd Hfill;
    [constructor|].
  rewrite fmap_cons in Hnd. apply NoDup_cons in Hnd as [Hc Hnd].
  destruct (row !! c) as [v0|] eqn:Hrow.
  - rewrite fill_empty_skip in Hfill by (rewrite Hrow; eauto).
    constructor; [left; simpl; rewrite Hrow; eauto|]. by apply IH.
  - rewrite fill_empty_step in Hfill by done.
    destruct (kind_default real_zero c k) as [v|] eqn:Hv; [|done].
    constructor; [right; simpl; rewrite Hv; eauto|].
    pose proof (IH _ Hnd Hfill) as Hall.
    rewrite Forall_forall in Hall |- *. intros [c' k'] Hin.
    destruct (Hall _ Hin) as [Hset|Hdef]; [|by right]. left. simpl in *.
    rewrite lookup_insert_ne in Hset; [done|].
    intros ->. apply Hc, list_elem_of_fmap. by exists (c', k').
Qed.

(** X16: the outcome of the loop does not depend on the order in which
    [cols.keys()] yields the columns: a run that ends gives the same row
    for every other order of the (distinct) columns. *)
Theorem fill_empty_order_independent cols cols' (row row' : Row real) :
  NoDup cols.*1 ->
  cols ≡ₚ cols' ->
  fill_empty real_zero cols row = ok row' ->
  fill_empty real_zero cols' row = ok row'.
Proof.
  intros Hnd Hperm Hfill.
  assert (Hnd' : NoDup cols'.*1) by (by rewrite <- Hperm).
  pose proof (fill_empty_can_fill _ _ _ Hnd Hfill) as Hcan.
  assert (Hcan' : Forall (can_fill real_zero row) cols')
    by (by rewrite <- Hperm).
  destruct (fill_empty_ok real_zero cols row Hnd Hcan)
    as (r1 & E1 & Hkeep1 & Hdef1).
  destruct (fill_empty_ok real_zero cols' row Hnd' Hcan')
    as (r2 & E2 & Hkeep2 & Hdef2).
  rewrite Hfill in E1. injection E1 as <-.
  rewrite E2. f_equal. apply map_eq. intros c.
  destruct (row !! c) as [v|] eqn:Hrow.
  - rewrite Hkeep1, Hkeep2 by (rewrite Hrow; eauto). done.
  - destruct (decide (c ∈ cols.*1)) as [Hin|Hout].
    + apply list_elem_of_fmap in Hin as ([c0 k] & -> & Hin). simpl in *.
      rewrite (Hdef1 c0 k), (Hdef2 c0 k); auto. by rewrite <- Hperm.
    + pose proof (fill_empty_dom _ _ _ Hfill) as Hdom1.
      pose proof (fill_empty_dom _ _ _ E2) as Hdom2.
      assert (Hnone : forall (r : Row real) (l : list (string * string)),
                 dom r = dom row ∪ list_to_set l.*1 -> c ∉ l.*1 ->
                 r !! c = None).
      { intros r l Hdom Hl. apply not_elem_of_dom. rewrite Hdom.
        rewrite not_elem_of_union, elem_of_list_to_set.
        split; [by apply not_elem_of_dom|done]. }
      rewrite (Hnone row' cols), (Hnone r2 cols'); auto.
      by rewrite <- Hperm.
Qed.

End FillLoop.

(** ** The gating nodes *)

Lemma filter_disjoint_union {A} (P Q : A -> Prop)
      `{forall x, Decision (P x)} `{forall x, Decision (Q x)} (l : list A) :
  (forall x, P x -> Q x -> False) ->
  filter (fun x => P x \/ Q x) l ≡ₚ filter P l ++ filter Q l.
Proof.
  intros Hdisj. induction l as [|x l IH]; [done|].
  rewrite !filter_cons.
  destruct (decide (P x)) as [HP|HP], (decide (Q x)) as [HQ|HQ].
  - by destruct (Hdisj x).
  - rewrite decide_True by auto. simpl. by rewrite IH.
  - rewrite decide_True by auto. rewrite IH.
    by rewrite Permutation_middle.
  - rewrite decide_False by tauto. done.
Qed.

(** The datafind files sorted by instrument are the files of these
    instruments, each once. *)
Lemma inputs_partition (ifos : list string) (datafind_files : FileList) :
  NoDup ifos ->
  concat ((fun ifo => filter (fun f => file_ifo f = ifo) datafind_files)
            <$> ifos)
  ≡ₚ filter (fun f => file_ifo f ∈ ifos) datafind_files.
Proof.
  unfold FileList in *.
  induction 1 as [|ifo ifos Hifo Hnd IH].
  - induction datafind_files as [|f l IHl]; [done|].
    rewrite filter_cons. rewrite decide_False by apply not_elem_of_nil. done.
  - rewrite fmap_cons. cbn [concat]. rewrite IH.
    rewrite <- (filter_disjoint_union (fun f => file_ifo f = ifo)
                  (fun f => file_ifo f ∈ ifos)).
    + apply Permutation_refl'. apply list_filter_iff. intros f.
      rewrite elem_of_cons. done.
    + intros f <- Hin. done.
Qed.

Section GatingMore.

Context {ExeClass Job Node : Type}.
Variable select_generic_executable : Workflow -> string -> result ExeClass.
Variable new_job :
  ExeClass -> ConfigParser -> string -> string -> option string ->
  list string -> result Job.
Variable create_node :
  Job -> FileList -> list string -> result (Node * File).

Lemma gating_loop_failure cls cp datafind_files outdir tags
      before ifo after err (nodes : list Node) (outs : FileList) :
  Forall (fun i => exists r, gating_call new_job create_node cls cp
                               datafind_files outdir tags i r) before ->
  (new_job cls cp "condition_strain" ifo outdir tags = inl err
   \/ exists job,
       new_job cls cp "condition_strain" ifo outdir tags = ok job
       /\ create_node job
            (filter (fun f => file_ifo f = ifo) datafind_files) tags
          = inl err) ->
  gating_loop new_job create_node cls cp datafind_files outdir tags
              (before ++ ifo :: after) nodes outs = inl err.
Proof.
  intros Hbefore Hfail. revert nodes outs.
  induction Hbefore as [|i before ([node out] & job & Hjob & Hnode) _ IH];
    intros nodes outs; simpl.
  - destruct Hfail as [->|(job & -> & Hnode)]; [done|]. simpl.
    by rewrite Hnode.
  - rewrite Hjob. simpl. rewrite Hnode. simpl. apply IH.
Qed.

(** X17: [make_gating_node] stops at the first instrument, in the order of
    [workflow.ifos], whose job or node cannot be made, and raises that
    error: no list is returned, and the error of a later instrument is
    never the one reported. *)
Theorem make_gating_node_first_failure
        (workflow : Workflow) (datafind_files : FileList)
        (outdir : option string) (tags : option (list string))
        cls before ifo after err :
  select_generic_executable workflow "condition_strain" = ok cls ->
  wf_ifos workflow = before ++ ifo :: after ->
  Forall (fun i => exists r,
            gating_call new_job create_node cls (wf_cp workflow)
                        datafind_files outdir (default [] tags) i r)
         before ->
  (new_job cls (wf_cp workflow) "condition_strain" ifo outdir
           (default [] tags) = inl err
   \/ exists job,
       new_job cls (wf_cp workflow) "condition_strain" ifo outdir
               (default [] tags) = ok job
       /\ create_node job
            (filter (fun f => file_ifo f = ifo) datafind_files)
            (default [] tags) = inl err) ->
  make_gating_node select_generic_executable new_job create_node
                   workflow datafind_files outdir tags = inl err.
Proof.
  intros Hcls Hifos Hbefore Hfail. unfold make_gating_node.
  rewrite Hcls, Hifos. simpl.
  change (match tags with Some t => t | None => [] end)
    with (default [] tags).
  by apply gating_loop_failure.
Qed.

(** X18: when [make_gating_node] returns and the instruments of the
    workflow are distinct, the lists of input files on which its nodes
    were created are, taken together, the datafind files whose [ifo] is an
    instrument of the workflow, each exactly once; a file of any other
    instrument is given to no node. *)
Theorem make_gating_node_inputs_partition
        (workflow : Workflow) (datafind_files : FileList)
        (outdir : option string) (tags : option (list string))
        (nodes : list Node) (outs : FileList) :
  make_gating_node select_generic_executable new_job create_node
                   workflow datafind_files outdir tags = ok (nodes, outs) ->
  NoDup (wf_ifos workflow) ->
  exists cls (inputs : list FileList),
    select_generic_executable workflow "condition_strain" = ok cls
    /\ length inputs = length nodes
    /\ (forall i node out,
          nodes !! i = Some node -> outs !! i = Some out ->
          exists ifo job files,
            wf_ifos workflow !! i = Some ifo
            /\ inputs !! i = Some files
            /\ new_job cls (wf_cp workflow) "condition_strain" ifo outdir
                       (default [] tags) = ok job
            /\ create_node job files (default [] tags) = ok (node, out))
    /\ concat inputs
       ≡ₚ filter (fun f => file_ifo f ∈ wf_ifos workflow) datafind_files.
Proof.
  intros Hrun Hnd. unfold make_gating_node in Hrun.
  change (match tags with Some t => t | None => [] end)
    with (default [] tags) in Hrun.
  destruct (select_generic_executable workflow "condition_strain")
    as [e|cls]; [done|]. simpl in Hrun.
  apply gating_loop_spec in Hrun as (rs & Hrs & -> & ->). simpl.
  exists cls,
    ((fun ifo => filter (fun f => file_ifo f = ifo) datafind_files)
       <$> wf_ifos workflow).
  split; [done|]. split.
  { rewrite !length_fmap. by apply Forall2_length in Hrs. }
  split; [|by apply inputs_partition].
  intros i node out Hnode Hout.
  apply list_lookup_fmap_Some in Hnode as ([node' out'] & -> & Hi).
  apply list_lookup_fmap_Some in Hout as ([node2 out2] & -> & Hi2).
  assert (Heq : (node', out') = (node2, out2)) by congruence.
  injection Heq as -> ->. simpl.
  destruct (Forall2_lookup_r _ _ _ _ _ Hrs Hi)
    as (ifo & Hifo & job & Hjob & Hcreate).
  exists ifo, job, (filter (fun f => file_ifo f = ifo) datafind_files).
  split; [done|]. split; [|done].
  by rewrite list_lookup_fmap, Hifo.
Qed.

End GatingMore.

(** ** The properties above on concrete inputs *)

Lemma decimal_str (z : Z) : Examples.decimal (str z) = Some z.
Proof.
  unfold Examples.decimal, str. rewrite NilZero.isi.
  - simpl. f_equal. apply DecimalZ.of_to.
  - destruct z; simpl; try discriminate.
    intros [= H]. by apply Unsigned.to_uint_nonnil in H.
  - destruct z; simpl; try discriminate.
    intros [= H]. by apply Unsigned.to_uint_nonnil in H.
Qed.

Lemma frames_present_lines_witness :
  frames_present [("H1", [Seg 0 10]); ("V1", [Seg 0 5])]
                 [("H1", [Seg 5 10])] "CIT" !! 1%nat
  = Some (NoScienceSegments "V1" "CIT").
Proof.
  apply (proj1 (proj2 (frames_present_lines
                         [("H1", [Seg 0 10]); ("V1", [Seg 0 5])]
                         [("H1", [Seg 5 10])] "CIT")
                      1%nat "V1" [Seg 0 5] eq_refl)).
  apply (bool_decide_unpack _). vm_compute. exact I.
Defined.

Lemma get_coh_PTF_files_retrieves_witness :
  get_coh_PTF_files Examples.decimal Examples.path_of_url Examples.grb_cp
    "H1L1" "/run" true true Examples.world
  = (ok (aux_File Examples.path_of_url "H1L1" "/run" (mk_segment 1000 5000)
           <$> aux_files true true),
     MkWorld (environ Examples.world) (denied Examples.world)
       (trace Examples.world
        ++ concat (aux_events "/opt/lalsuite" "/run" <$> aux_files true true))).
Proof.
  apply (get_coh_PTF_files_retrieves Examples.decimal Examples.path_of_url
           Examples.grb_cp "H1L1" "/run" true true Examples.world
           "/opt/lalsuite" "1000" "5000" 1000 5000);
    try reflexivity.
  - apply not_elem_of_empty.
  - intros file _. apply not_elem_of_empty.
Defined.

Lemma get_coh_PTF_files_checks_times_first_witness :
  get_coh_PTF_files Examples.decimal Examples.path_of_url
    Examples.cp_without_times "H1L1" "/run" true true Examples.world
  = (raise (NoOptionError "start-time" "workflow"), Examples.world).
Proof.
  apply (proj1 (proj2 (get_coh_PTF_files_checks_times_first
                         Examples.decimal Examples.path_of_url
                         Examples.cp_without_times "H1L1" "/run" true true
                         Examples.world "/opt/lalsuite" eq_refl))
               {[ "ra" := "12"; "dec" := "-7" ]});
    reflexivity.
Defined.

Lemma get_coh_PTF_files_stops_at_refused_copy_witness :
  get_coh_PTF_files Examples.decimal Examples.path_of_url Examples.grb_cp
    "H1L1" "/run" true true MoreExamples.world_js_refused
  = (raise (IOError (aux_source "/opt/lalsuite" "coh_PTF_html_summary.js")),
     MkWorld (environ MoreExamples.world_js_refused)
       (denied MoreExamples.world_js_refused)
       [Copied (aux_source "/opt/lalsuite" "bank_veto_bank.xml") "/run";
        FileCreated "bank_veto_bank"]).
Proof.
  apply (get_coh_PTF_files_stops_at_refused_copy Examples.decimal
           Examples.path_of_url Examples.grb_cp "H1L1" "/run"
           MoreExamples.world_js_refused "/opt/lalsuite" "1000" "5000"
           1000 5000);
    try reflexivity;
    apply (bool_decide_unpack _); vm_compute; exact I.
Defined.

Lemma make_exttrig_file_missing_option_witness :
  make_exttrig_file 0 Examples.decimal Examples.decimal Examples.join
    Examples.url_of_path Examples.columns Examples.cp_without_times
    "H1L1" (Seg 1000 5000) "/run" Examples.world
  = (raise (NoOptionError "trigger-time" "workflow"), Examples.world).
Proof.
  pose proof (make_exttrig_file_missing_option 0 Examples.decimal
                Examples.decimal Examples.join Examples.url_of_path
                Examples.columns Examples.cp_without_times "H1L1"
                (Seg 1000 5000) "/run" Examples.world) as [_ H].
  destruct (H {[ "ra" := "12"; "dec" := "-7" ]} eq_refl) as [_ Hra].
  destruct (Hra "12" 12 eq_refl eq_refl) as [_ Hdec].
  destruct (Hdec "-7" (-7) eq_refl eq_refl) as [Htime _].
  apply Htime. reflexivity.
Defined.

Lemma get_coh_PTF_files_after_set_grb_start_end_witness :
  exists files w',
    get_coh_PTF_files Examples.decimal Examples.path_of_url
      (set_grb_start_end Examples.grb_cp 1200 4800).2
      "H1L1" "/run" true true Examples.world
    = (ok files, w')
    /\ length files = 3%nat
    /\ Forall (fun f => file_segment f = Seg 1200 4800) files.
Proof.
  apply (get_coh_PTF_files_after_set_grb_start_end Examples.decimal
           Examples.path_of_url Examples.grb_cp 1200 4800 "H1L1" "/run"
           true true Examples.world "/opt/lalsuite").
  - by eexists.
  - apply decimal_str.
  - reflexivity.
  - apply not_elem_of_empty.
  - intros file _. apply not_elem_of_empty.
Defined.

Lemma fill_empty_only_adds_witness :
  (∅ : Row Z) ⊆ MoreExamples.two_columns_row
  /\ dom MoreExamples.two_columns_row
     = dom (∅ : Row Z) ∪ list_to_set MoreExamples.two_columns.*1
  /\ fill_empty 0 MoreExamples.two_columns MoreExamples.two_columns_row
     = ok MoreExamples.two_columns_row.
Proof.
  apply (fill_empty_only_adds 0 MoreExamples.two_columns ∅
           MoreExamples.two_columns_row).
  reflexivity.
Defined.

Lemma fill_empty_order_independent_witness :
  fill_empty 0 MoreExamples.two_columns_swapped (∅ : Row Z)
  = ok MoreExamples.two_columns_row.
Proof.
  apply (fill_empty_order_independent 0 MoreExamples.two_columns
           MoreExamples.two_columns_swapped ∅ MoreExamples.two_columns_row).
  - apply (bool_decide_unpack _). vm_compute. exact I.
  - apply perm_swap.
  - reflexivity.
Defined.

Lemma make_gating_node_first_failure_witness :
  make_gating_node (fun _ _ => ok tt) MoreExamples.job_unless_L1
    Examples.node_of Examples.two_ifo_workflow MoreExamples.frames None None
  = inl (ExternalError "no job for L1").
Proof.
  apply (make_gating_node_first_failure (fun _ _ => ok tt)
           MoreExamples.job_unless_L1 Examples.node_of
           Examples.two_ifo_workflow MoreExamples.frames None None
           tt ["H1"] "L1" []).
  - reflexivity.
  - reflexivity.
  - constructor; [|constructor]. eexists. eexists. split; reflexivity.
  - left. reflexivity.
Defined.

Lemma make_gating_node_inputs_partition_witness :
  exists (cls : unit) (inputs : list FileList),
    length inputs = 2%nat
    /\ concat inputs
       ≡ₚ filter (fun f => file_ifo f ∈ ["H1"; "L1"]) MoreExamples.frames.
Proof.
  destruct (make_gating_node_inputs_partition (fun _ _ => ok tt)
              Examples.job_of Examples.node_of Examples.two_ifo_workflow
              MoreExamples.frames None None
              [("H1", ["H-1.gwf"; "H-2.gwf"]); ("L1", ["L-1.gwf"])]
              [ new_File "H1" "GATED" (Seg 0 1) "gated-H1";
                new_File "L1" "GATED" (Seg 0 1) "gated-L1" ])
    as (cls & inputs & _ & Hlen & _ & Hperm).
  - reflexivity.
  - apply (bool_decide_unpack _). vm_compute. exact I.
  - exists cls, inputs. split; [exact Hlen|exact Hperm].
Defined.
